(** * NeRF-or-Nothing web server: scene store and access gateway

    A shallow embedding of
    - [internal/models/scene/SceneManager.go] (package [scene]): the manager
      of the [nerfdb.scenes] MongoDB collection, with its setters, getters
      and [DeleteScene] ([SetScene] and [GetScene] move a whole [Scene]
      struct, which is declared elsewhere, and are left out), and
    - the server file of package [web]: the [tokenRequired] middleware,
      [loginUser], which issues the tokens, the five handlers that
      [SetupRoutes] puts behind the middleware, the handlers it leaves
      open ([registerUser], [getWorkerData], [getRoutes], [healthCheck]),
      [SetupRoutes] itself and [SetupFileStructure] ([NewWebServer] and
      [Run] only hand over to fiber, and are left out),
    with the libraries they call (the MongoDB driver, [jwt], [base64],
    [strings], [fiber]) modelled as far as these functions use them.
    The definitions come first; the properties that the specification
    states of the store and of the gateway follow, and after them
    properties of how the calls of the store compose and of what the
    gateway and the routes around it let through. *)

From Stdlib Require Import ZArith NArith String Ascii List Lia.
From stdpp Require Import base option gmap strings list fin_maps.
Import ListNotations.

Local Open Scope string_scope.
Local Open Scope Z_scope.

(** ** Package [primitive] of the MongoDB driver *)
Module primitive.

(** [type ObjectID [12]byte]: the twelve bytes read as one big-endian
    number below [2^96]. *)
Abbreviation ObjectID := N (only parsing).

(** The errors of [ObjectIDFromHex]: [primitive.ErrInvalidHex] for a wrong
    length, [hex.InvalidByteError] for a byte that is no hex digit. *)
Inductive hex_error : Type :=
| ErrInvalidHex
| InvalidByteError (c : ascii).

(** [fromHexChar] of [encoding/hex]: both cases of the letters count. *)
Definition fromHexChar (c : ascii) : option N :=
  let n := N_of_ascii c in
  if (48 <=? n)%N && (n <=? 57)%N then Some (n - 48)%N
  else if (97 <=? n)%N && (n <=? 102)%N then Some (n - 97 + 10)%N
  else if (65 <=? n)%N && (n <=? 70)%N then Some (n - 65 + 10)%N
  else None.

(** [hex.DecodeString] on a string of even length, the bytes read as one
    big-endian number. *)
Fixpoint hex_decode (s : string) (acc : N) : N + hex_error :=
  match s with
  | EmptyString => inl acc
  | String c rest =>
      match fromHexChar c with
      | Some d => hex_decode rest (16 * acc + d)%N
      | None => inr (InvalidByteError c)
      end
  end.

(** [primitive.ObjectIDFromHex] *)
Definition ObjectIDFromHex (s : string) : ObjectID + hex_error :=
  if negb (String.length s =? 24)%nat then inr ErrInvalidHex
  else hex_decode s 0%N.

End primitive.

(** ** Package [mongo]: the part of the driver the scene manager calls *)
Module mongo.
Import primitive.

(** Errors that originate in the driver.  [ErrNoDocuments] is the sentinel
    the getters compare against; everything else (transport, server,
    decoding) is a [CommandError]. *)
Inductive driver_error : Type :=
| ErrNoDocuments
| CommandError (msg : string).

#[global] Instance driver_error_eq_dec : EqDecision driver_error.
Proof. solve_decision. Defined.

(** [mongo.UpdateResult]: the two counters the manager reads. *)
Record UpdateResult := mkUpdateResult {
  MatchedCount : Z;
  UpsertedCount : Z
}.

(** [mongo.DeleteResult] *)
Record DeleteResult := mkDeleteResult {
  DeletedCount : Z
}.

(** [options.Update().SetUpsert(b)] *)
Record UpdateOptions := mkUpdateOptions {
  Upsert : bool
}.

(** [context.Context]: passed through to the driver, never inspected by the
    manager. *)
Inductive Context : Type := context_TODO | context_Background.

End mongo.

(** ** Package [scene] *)
Module scene.
Import primitive mongo.

(** Custom errors of the package ([errors.New] sentinels), and errors handed
    through unchanged from the driver. *)
Inductive err : Type :=
| ErrSceneNotFound
| ErrVideoNotFound
| ErrSfmNotFound
| ErrNerfNotFound
| ErrTrainingConfigNotFound
| FromDriver (e : driver_error).

(** Go's [error]: [None] is [nil]. *)
Abbreviation error := (option err).

(** The sub-resource structs are declared in other files of the package, and
    the manager only stores and returns them; [Logger] is [log.Logger], kept
    in the manager but not used by its methods. *)
Class Payloads := {
  Video : Type;
  Sfm : Type;
  Nerf : Type;
  TrainingConfig : Type;
  Logger : Type
}.

Section Store.
Context `{Payloads}.

(** BSON values that occur in a scene document: [null] (an encoded nil
    pointer), a string, or the embedded document of one sub-resource. *)
Inductive bval : Type :=
| BNull
| BString (s : string)
| BVideo (v : Video)
| BSfm (s : Sfm)
| BNerf (n : Nerf)
| BConfig (t : TrainingConfig).

(** [bson.M]: a document as a map from field names to values.  The [_id]
    field is not part of it: it is the key under which the collection holds
    the document. *)
Abbreviation M := (gmap string bval).

(** The filters and updates the manager issues. *)
Inductive Filter : Type :=
| by_id (id : ObjectID).                (* bson.M{"_id": id} *)
Inductive Update : Type :=
| set_fields (fields : M).              (* bson.M{"$set": fields} *)

(** [*mongo.SingleResult]: the error of the find, or the raw document. *)
Inductive SingleResult : Type :=
| SingleErr (e : driver_error)
| SingleDoc (d : M).

(** The three methods of [*mongo.Collection] that the manager calls, over a
    collection state [C]. *)
Class Collection (C : Type) := {
  UpdateOne : Context -> C -> Filter -> Update -> UpdateOptions ->
              (UpdateResult + driver_error) * C;
  FindOne : Context -> C -> Filter -> SingleResult;
  DeleteOne : Context -> C -> Filter -> (DeleteResult + driver_error) * C
}.

(** *** Encoding and decoding of the fields *)

(** Encoding of a pointer field: nil becomes BSON null. *)
Definition enc_ptr {A} (inj : A -> bval) (p : option A) : bval :=
  match p with
  | None => BNull
  | Some a => inj a
  end.

(** [SingleResult.Decode] into a struct with one pointer field tagged [key]:
    a missing field or a null leaves the pointer nil; a value of another
    kind is a decoding error. *)
Definition Decode_ptr {A} (proj : bval -> option A) (key : string)
    (r : SingleResult) : option A + driver_error :=
  match r with
  | SingleErr e => inr e
  | SingleDoc d =>
      match d !! key with
      | None => inl None
      | Some BNull => inl None
      | Some v =>
          match proj v with
          | Some a => inl (Some a)
          | None => inr (CommandError "cannot decode")
          end
      end
  end.

(** [SingleResult.Decode] into [struct { Name string `bson:"name"` }]: a
    missing field or a null leaves the zero value, the empty string. *)
Definition Decode_name (r : SingleResult) : string + driver_error :=
  match r with
  | SingleErr e => inr e
  | SingleDoc d =>
      match d !! "name" with
      | None => inl EmptyString
      | Some BNull => inl EmptyString
      | Some (BString s) => inl s
      | Some _ => inr (CommandError "cannot decode")
      end
  end.

Definition as_video (v : bval) : option Video :=
  match v with BVideo x => Some x | _ => None end.
Definition as_sfm (v : bval) : option Sfm :=
  match v with BSfm x => Some x | _ => None end.
Definition as_nerf (v : bval) : option Nerf :=
  match v with BNerf x => Some x | _ => None end.
Definition as_config (v : bval) : option TrainingConfig :=
  match v with BConfig x => Some x | _ => None end.

(** *** The manager *)

Section Manager.
Context {C : Type} `{!Collection C}.

Record SceneManager := mkSceneManager {
  collection : C;
  logger : Logger
}.

Definition with_collection (sm : SceneManager) (c : C) : SceneManager :=
  {| collection := c; logger := logger sm |}.

(** [SetTrainingConfig] sets the TrainingConfig data by the scene ID. *)
Definition SetTrainingConfig (ctx : Context) (sm : SceneManager) (id : ObjectID)
    (config : option TrainingConfig) : error * SceneManager :=
  let '(r, c) := UpdateOne ctx (collection sm)
                   (by_id id)
                   (set_fields {[ "config" := enc_ptr BConfig config ]})
                   {| Upsert := true |} in
  match r with
  | inr e => (Some (FromDriver e), with_collection sm c)
  | inl result =>
      if (MatchedCount result =? 0) && (UpsertedCount result =? 0)
      then (Some ErrSceneNotFound, with_collection sm c)
      else (None, with_collection sm c)
  end.

(** [SetVideo] sets the Video data by the scene ID. *)
Definition SetVideo (ctx : Context) (sm : SceneManager) (id : ObjectID)
    (vid : option Video) : error * SceneManager :=
  let '(r, c) := UpdateOne ctx (collection sm)
                   (by_id id)
                   (set_fields {[ "video" := enc_ptr BVideo vid ]})
                   {| Upsert := true |} in
  match r with
  | inr e => (Some (FromDriver e), with_collection sm c)
  | inl result =>
      if (MatchedCount result =? 0) && (UpsertedCount result =? 0)
      then (Some ErrSceneNotFound, with_collection sm c)
      else (None, with_collection sm c)
  end.

(** [SetSfm] sets the Sfm data by the scene ID. *)
Definition SetSfm (ctx : Context) (sm : SceneManager) (id : ObjectID)
    (sfm : option Sfm) : error * SceneManager :=
  let '(r, c) := UpdateOne ctx (collection sm)
                   (by_id id)
                   (set_fields {[ "sfm" := enc_ptr BSfm sfm ]})
                   {| Upsert := true |} in
  match r with
  | inr e => (Some (FromDriver e), with_collection sm c)
  | inl result =>
      if (MatchedCount result =? 0) && (UpsertedCount result =? 0)
      then (Some ErrSceneNotFound, with_collection sm c)
      else (None, with_collection sm c)
  end.

(** [SetNerf] sets the Nerf data by the scene ID. *)
Definition SetNerf (ctx : Context) (sm : SceneManager) (id : ObjectID)
    (nerf : option Nerf) : error * SceneManager :=
  let '(r, c) := UpdateOne ctx (collection sm)
                   (by_id id)
                   (set_fields {[ "nerf" := enc_ptr BNerf nerf ]})
                   {| Upsert := true |} in
  match r with
  | inr e => (Some (FromDriver e), with_collection sm c)
  | inl result =>
      if (MatchedCount result =? 0) && (UpsertedCount result =? 0)
      then (Some ErrSceneNotFound, with_collection sm c)
      else (None, with_collection sm c)
  end.

(** [SetSceneName] sets the name of the scene by its ID. *)
Definition SetSceneName (ctx : Context) (sm : SceneManager) (id : ObjectID)
    (name : string) : error * SceneManager :=
  let '(r, c) := UpdateOne ctx (collection sm)
                   (by_id id)
                   (set_fields {[ "name" := BString name ]})
                   {| Upsert := true |} in
  match r with
  | inr e => (Some (FromDriver e), with_collection sm c)
  | inl result =>
      if (MatchedCount result =? 0) && (UpsertedCount result =? 0)
      then (Some ErrSceneNotFound, with_collection sm c)
      else (None, with_collection sm c)
  end.

Definition GetSceneName (ctx : Context) (sm : SceneManager) (id : ObjectID)
    : string * error :=
  match Decode_name (FindOne ctx (collection sm) (by_id id)) with
  | inr e =>
      if decide (e = ErrNoDocuments)
      then (EmptyString, Some ErrSceneNotFound)
      else (EmptyString, Some (FromDriver e))
  | inl name => (name, None)
  end.

Definition GetTrainingConfig (ctx : Context) (sm : SceneManager)
    (id : ObjectID) : option TrainingConfig * error :=
  match Decode_ptr as_config "config" (FindOne ctx (collection sm) (by_id id)) with
  | inr e =>
      if decide (e = ErrNoDocuments)
      then (None, Some ErrSceneNotFound)
      else (None, Some (FromDriver e))
  | inl None => (None, Some ErrTrainingConfigNotFound)
  | inl (Some config) => (Some config, None)
  end.

Definition GetVideo (ctx : Context) (sm : SceneManager) (id : ObjectID)
    : option Video * error :=
  match Decode_ptr as_video "video" (FindOne ctx (collection sm) (by_id id)) with
  | inr e =>
      if decide (e = ErrNoDocuments)
      then (None, Some ErrSceneNotFound)
      else (None, Some (FromDriver e))
  | inl None => (None, Some ErrVideoNotFound)
  | inl (Some video) => (Some video, None)
  end.

Definition GetSfm (ctx : Context) (sm : SceneManager) (id : ObjectID)
    : option Sfm * error :=
  match Decode_ptr as_sfm "sfm" (FindOne ctx (collection sm) (by_id id)) with
  | inr e =>
      if decide (e = ErrNoDocuments)
      then (None, Some ErrSceneNotFound)
      else (None, Some (FromDriver e))
  | inl None => (None, Some ErrSfmNotFound)
  | inl (Some sfm) => (Some sfm, None)
  end.

Definition GetNerf (ctx : Context) (sm : SceneManager) (id : ObjectID)
    : option Nerf * error :=
  match Decode_ptr as_nerf "nerf" (FindOne ctx (collection sm) (by_id id)) with
  | inr e =>
      if decide (e = ErrNoDocuments)
      then (None, Some ErrSceneNotFound)
      else (None, Some (FromDriver e))
  | inl None => (None, Some ErrNerfNotFound)
  | inl (Some nerf) => (Some nerf, None)
  end.

Definition DeleteScene (ctx : Context) (sm : SceneManager) (id : ObjectID)
    : error * SceneManager :=
  let '(r, c) := DeleteOne ctx (collection sm) (by_id id) in
  match r with
  | inr e => (Some (FromDriver e), with_collection sm c)
  | inl result =>
      if DeletedCount result =? 0
      then (Some ErrSceneNotFound, with_collection sm c)
      else (None, with_collection sm c)
  end.

End Manager.


(** *** A reachable MongoDB collection

    The meaning of the three driver calls on a deployment that answers: the
    collection is a map from [_id] to document. *)
Abbreviation Docs := (gmap ObjectID M).

(** [UpdateOne] with a [$set]: the fields replace those of the matched
    document; with no match and [upsert] a document of just these fields is
    inserted. *)
Definition mem_UpdateOne (ctx : Context) (c : Docs) (f : Filter)
    (u : Update) (o : UpdateOptions) : (UpdateResult + driver_error) * Docs :=
  match f, u with
  | by_id id, set_fields fields =>
      match c !! id with
      | Some d =>
          (inl {| MatchedCount := 1; UpsertedCount := 0 |},
           <[ id := fields ∪ d ]> c)
      | None =>
          if Upsert o
          then (inl {| MatchedCount := 0; UpsertedCount := 1 |},
                <[ id := fields ]> c)
          else (inl {| MatchedCount := 0; UpsertedCount := 0 |}, c)
      end
  end.

Definition mem_FindOne (ctx : Context) (c : Docs) (f : Filter)
    : SingleResult :=
  match f with
  | by_id id =>
      match c !! id with
      | Some d => SingleDoc d
      | None => SingleErr ErrNoDocuments
      end
  end.

Definition mem_DeleteOne (ctx : Context) (c : Docs) (f : Filter)
    : (DeleteResult + driver_error) * Docs :=
  match f with
  | by_id id =>
      match c !! id with
      | Some _ => (inl {| DeletedCount := 1 |}, delete id c)
      | None => (inl {| DeletedCount := 0 |}, c)
      end
  end.

#[export] Instance memdb : Collection Docs := {|
  UpdateOne := mem_UpdateOne;
  FindOne := mem_FindOne;
  DeleteOne := mem_DeleteOne
|}.

(** A driver whose upsert reports neither a match nor a creation: the
    anomaly the setters guard against. *)
Definition silent : Collection unit := {|
  UpdateOne := fun ctx c f u o =>
    (inl {| MatchedCount := 0; UpsertedCount := 0 |}, c);
  FindOne := fun ctx c f => SingleErr ErrNoDocuments;
  DeleteOne := fun ctx c f => (inl {| DeletedCount := 0 |}, c)
|}.

(** What an upsert reported, read off the driver's answer. *)
Definition reports_neither (r : UpdateResult + driver_error) : Prop :=
  exists res, r = inl res /\ MatchedCount res = 0 /\ UpsertedCount res = 0.

Definition reports_match_or_creation (r : UpdateResult + driver_error) : Prop :=
  exists res, r = inl res /\ (MatchedCount res <> 0 \/ UpsertedCount res <> 0).

(** The field a stored document holds under [key], if the document exists. *)
Definition stored (c : Docs) (id : ObjectID) (key : string) : option bval :=
  c !! id ≫= (.!! key).

(** The collection after an upsert of one field of the document of [id]. *)
Definition upserted (c : Docs) (id : ObjectID) (key : string) (v : bval) : Docs :=
  <[ id := <[ key := v ]> (default ∅ (c !! id)) ]> c.

(** A write that touches only the field [key] of the document of [id]. *)
Definition touches_only (key : string) (id : ObjectID) (c c' : Docs) : Prop :=
  (forall key', key <> key' -> stored c' id key' = stored c id key') /\
  (forall id', id <> id' -> c' !! id' = c !! id').

(** What the setters promise about one call, given the driver's answer to
    the upsert the call issues. *)
Definition setter_contract {C} `{!Collection C} (ctx : Context)
    (sm : @SceneManager C) (id : ObjectID) (fields : M)
    (run : error * @SceneManager C) : Prop :=
  let answer := (UpdateOne ctx (collection sm) (by_id id) (set_fields fields)
                   {| Upsert := true |}).1 in
  (run.1 = Some ErrSceneNotFound <-> reports_neither answer) /\
  (run.1 = None <-> reports_match_or_creation answer).

End Store.

Arguments SceneManager {_} C.
Abbreviation M := (gmap string bval).
Abbreviation Docs := (gmap ObjectID M).

End scene.

(** ** Go's [[]byte] and the packages [strings] and [base64] *)

(** A byte slice; a Go string is a [string], the same bytes. *)
Abbreviation bytes := (list ascii) (only parsing).

Module strings.

(** [strings.Split(s, sep)] for a separator of one byte, as every call of
    the gateway and of the token parser passes: the substrings between the
    separators, one more than there are separators. *)
Fixpoint Split (s : string) (sep : ascii) : list string :=
  match s with
  | EmptyString => [EmptyString]
  | String c rest =>
      if Ascii.eqb c sep then EmptyString :: Split rest sep
      else match Split rest sep with
           | [] => [String c EmptyString]
           | part :: parts => String c part :: parts
           end
  end.

(** [strings.Join(elems, sep)] *)
Fixpoint Join (elems : list string) (sep : string) : string :=
  match elems with
  | [] => EmptyString
  | [e] => e
  | e :: rest => e ++ sep ++ Join rest sep
  end.

(** A string in which the byte [c] does not occur. *)
Fixpoint free_of (c : ascii) (s : string) : bool :=
  match s with
  | EmptyString => true
  | String x rest => negb (Ascii.eqb x c) && free_of c rest
  end.

End strings.

Module base64.

(** The value of a byte, and [byte(v)]: the low eight bits. *)
Definition uint (c : ascii) : Z := Z.of_N (N_of_ascii c).
Definition byte (v : Z) : ascii := ascii_of_N (Z.to_N (Z.land v 255)).

(** [encodeURL], the alphabet of [base64.URLEncoding]. *)
Definition encodeURL : string :=
  "ABCDEFGHIJKLMNOPQRSTUVWXYZabcdefghijklmnopqrstuvwxyz0123456789-_".

(** [enc.encode[i]] *)
Definition encode (i : Z) : ascii :=
  nth (Z.to_nat i) (list_ascii_of_string encodeURL) "="%char.

Fixpoint index_from (c : ascii) (alphabet : list ascii) (i : Z) : Z :=
  match alphabet with
  | [] => 255
  | x :: rest => if Ascii.eqb x c then i else index_from c rest (i + 1)
  end.

(** [enc.decodeMap[c]]: the index of [c] in the alphabet, [0xff] for a byte
    outside it. *)
Definition decodeMap (c : ascii) : Z :=
  index_from c (list_ascii_of_string encodeURL) 0.

(** An [Encoding] over that alphabet: its padding character, [None] for
    [NoPadding]. *)
Record Encoding := { padChar : option ascii }.

Definition URLEncoding : Encoding := {| padChar := Some "="%char |}.
Definition RawURLEncoding : Encoding := {| padChar := None |}.

Definition padding (enc : Encoding) (n : nat) : string :=
  match padChar enc with
  | Some pad => string_of_list_ascii (repeat pad n)
  | None => EmptyString
  end.

(** [enc.EncodeToString]: three bytes become four characters; a remainder
    of one or two bytes becomes two or three characters, followed by the
    padding if the encoding has one. *)
Fixpoint EncodeToString (enc : Encoding) (src : bytes) : string :=
  match src with
  | [] => EmptyString
  | [b0] =>
      let val := Z.shiftl (uint b0) 16 in
      String (encode (Z.land (Z.shiftr val 18) 63))
        (String (encode (Z.land (Z.shiftr val 12) 63))
           (padding enc 2))
  | [b0; b1] =>
      let val := Z.lor (Z.shiftl (uint b0) 16) (Z.shiftl (uint b1) 8) in
      String (encode (Z.land (Z.shiftr val 18) 63))
        (String (encode (Z.land (Z.shiftr val 12) 63))
           (String (encode (Z.land (Z.shiftr val 6) 63))
              (padding enc 1)))
  | b0 :: b1 :: b2 :: rest =>
      let val := Z.lor (Z.lor (Z.shiftl (uint b0) 16) (Z.shiftl (uint b1) 8))
                   (uint b2) in
      String (encode (Z.land (Z.shiftr val 18) 63))
        (String (encode (Z.land (Z.shiftr val 12) 63))
           (String (encode (Z.land (Z.shiftr val 6) 63))
              (String (encode (Z.land val 63))
                 (EncodeToString enc rest))))
  end.

(** The end of [decodeQuantum]: the six-bit values read so far ([dlen] of
    them, two to four) give [dlen - 1] bytes. *)
Definition quantum_bytes (dbuf : list Z) : bytes :=
  let val := Z.lor (Z.lor (Z.lor (Z.shiftl (nth 0 dbuf 0) 18)
                                 (Z.shiftl (nth 1 dbuf 0) 12))
                          (Z.shiftl (nth 2 dbuf 0) 6))
                   (nth 3 dbuf 0) in
  take (length dbuf - 1)
    [byte (Z.shiftr val 16); byte (Z.shiftr val 8); byte (Z.shiftr val 0)].

Definition is_newline (c : ascii) : bool :=
  Ascii.eqb c "010"%char || Ascii.eqb c "013"%char.

Definition is_pad (enc : Encoding) (c : ascii) : bool :=
  match padChar enc with
  | Some pad => Ascii.eqb c pad
  | None => false
  end.

Fixpoint skip_newlines (s : string) : string :=
  match s with
  | String c rest => if is_newline c then skip_newlines rest else s
  | EmptyString => s
  end.

(** [enc.DecodeString], not strict: line breaks are skipped; four
    characters of the alphabet give three bytes.  With padding, the input
    may not end inside a quantum, and the padding is accepted only as the
    third and fourth or as the fourth character of the last quantum, with
    nothing but line breaks after it.  Without padding, the input may end
    after two or three characters of a quantum.  Any other byte, or an end
    after the first character of a quantum, makes the input corrupt
    ([None]).  [dbuf] holds the values of the current quantum. *)
Fixpoint decode_from (enc : Encoding) (src : string) (dbuf : list Z)
    : option bytes :=
  match src with
  | EmptyString =>
      match length dbuf with
      | 0%nat => Some []
      | 1%nat => None
      | _ => match padChar enc with
             | Some _ => None
             | None => Some (quantum_bytes dbuf)
             end
      end
  | String c rest =>
      let out := decodeMap c in
      if negb (out =? 255) then
        if (length dbuf =? 3)%nat
        then app (quantum_bytes (dbuf ++ [out])) <$> decode_from enc rest []
        else decode_from enc rest (dbuf ++ [out])
      else if is_newline c then decode_from enc rest dbuf
      else if negb (is_pad enc c) then None
      else
        match length dbuf with
        | 2%nat =>
            match skip_newlines rest with
            | String c' rest' =>
                if negb (is_pad enc c') then None
                else match skip_newlines rest' with
                     | EmptyString => Some (quantum_bytes dbuf)
                     | _ => None
                     end
            | EmptyString => None
            end
        | 3%nat =>
            match skip_newlines rest with
            | EmptyString => Some (quantum_bytes dbuf)
            | _ => None
            end
        | _ => None
        end
  end.

Definition DecodeString (enc : Encoding) (s : string) : option bytes :=
  decode_from enc s [].

(** A byte outside the alphabet that is not [=] either. *)
Definition foreign (c : ascii) : bool :=
  negb (Ascii.eqb "="%char c)
  && forallb (fun x => negb (Ascii.eqb x c)) (list_ascii_of_string encodeURL).

End base64.

(** ** Go values *)

(** [float64], which the gateway never computes with. *)
Class GoFloat := { float64 : Type }.

(** A value behind [interface{}], of the kinds [encoding/json] produces. *)
#[warnings="-register-all"]
Inductive any `{GoFloat} : Type :=
| Nil
| Bool (b : bool)
| Float64 (f : float64)
| Str (s : string)
| Arr (l : list any)
| Obj (m : gmap string any).

(** ** Package [jwt] (github.com/golang-jwt/jwt, v3.2.2), as the gateway
    uses it *)
Module jwt.

Inductive Hash : Type := SHA256 | SHA384 | SHA512.

(** The registered signing methods: the three HMAC methods, and the others
    (RSA, ECDSA, RSA-PSS, EdDSA, none), which accept no byte-slice key. *)
Inductive SigningMethod : Type :=
| SigningMethodHMAC (name : string) (h : Hash)
| SigningMethodOther (name : string).

Definition SigningMethodHS256 := SigningMethodHMAC "HS256" SHA256.
Definition SigningMethodHS384 := SigningMethodHMAC "HS384" SHA384.
Definition SigningMethodHS512 := SigningMethodHMAC "HS512" SHA512.

Definition Alg (m : SigningMethod) : string :=
  match m with
  | SigningMethodHMAC name _ => name
  | SigningMethodOther name => name
  end.

Definition other_methods : list string :=
  ["RS256"; "RS384"; "RS512"; "ES256"; "ES384"; "ES512";
   "PS256"; "PS384"; "PS512"; "EdDSA"; "none"].

(** [jwt.GetSigningMethod]: nil for a name that is not registered. *)
Definition GetSigningMethod (alg : string) : option SigningMethod :=
  if String.eqb alg "HS256" then Some SigningMethodHS256
  else if String.eqb alg "HS384" then Some SigningMethodHS384
  else if String.eqb alg "HS512" then Some SigningMethodHS512
  else if existsb (String.eqb alg) other_methods then Some (SigningMethodOther alg)
  else None.

(** The flags of [ValidationError.Errors]. *)
Definition ValidationErrorMalformed : Z := 1.
Definition ValidationErrorUnverifiable : Z := 2.
Definition ValidationErrorSignatureInvalid : Z := 4.
Definition ValidationErrorClaimsInvalid : Z := 512.

Record ValidationError := NewValidationError { Errors : Z }.

(** [EncodeSegment] and [DecodeSegment]: base64url without padding. *)
Definition EncodeSegment (seg : bytes) : string :=
  base64.EncodeToString base64.RawURLEncoding seg.

Definition DecodeSegment (seg : string) : option bytes :=
  base64.DecodeString base64.RawURLEncoding seg.

Section Codec.
Context `{GoFloat}.

(** What the package takes from the standard library and from its own
    claims validation:
    - [hmac_Sum h key msg]: the HMAC of [msg] under [key] with hash [h];
    - [json_Marshal], [json_Unmarshal] and [json_Decode] (a [json.Decoder]
      reading one value) of [encoding/json] on a JSON object;
    - [MapClaims_Valid m now]: the [Errors] flags [MapClaims.Valid] raises
      for the time claims of [m] at Unix time [now], 0 when it returns nil. *)
Class Libraries := {
  hmac_Sum : Hash -> bytes -> bytes -> bytes;
  json_Marshal : gmap string any -> option bytes;
  json_Unmarshal : bytes -> option (gmap string any);
  json_Decode : bytes -> option (gmap string any);
  MapClaims_Valid : gmap string any -> Z -> Z
}.
Context `{Libraries}.

(** The [Claims] interface: [MapClaims], or another implementation. *)
Inductive Claims : Type :=
| MapClaims (m : gmap string any)
| OtherClaims.

Record Token := mkToken {
  Raw : string;
  Method : option SigningMethod;
  Header : gmap string any;
  claims : Claims;                (* the field [Claims] *)
  Signature : string;
  Valid : bool
}.

(** [jwt.NewWithClaims] *)
Definition NewWithClaims (method : SigningMethod) (c : Claims) : Token :=
  {| Raw := EmptyString;
     Method := Some method;
     Header := {[ "typ" := Str "JWT"; "alg" := Str (Alg method) ]};
     claims := c;
     Signature := EmptyString;
     Valid := false |}.

(** [SigningMethod.Sign] with a key of type [[]byte] *)
Definition Sign (m : SigningMethod) (signingString : string) (key : bytes)
    : option string :=
  match m with
  | SigningMethodHMAC _ h =>
      Some (EncodeSegment (hmac_Sum h key (list_ascii_of_string signingString)))
  | SigningMethodOther _ => None
  end.

(** [SigningMethod.Verify] with a key of type [[]byte]: [true] for nil. *)
Definition Verify (m : SigningMethod) (signingString signature : string)
    (key : bytes) : bool :=
  match m with
  | SigningMethodHMAC _ h =>
      match DecodeSegment signature with
      | None => false
      | Some sig =>
          bool_decide (sig = hmac_Sum h key (list_ascii_of_string signingString))
      end
  | SigningMethodOther _ => false
  end.

(** [Token.SigningString] *)
Definition SigningString (t : Token) : option string :=
  match json_Marshal (Header t) with
  | None => None
  | Some header =>
      match claims t with
      | OtherClaims => None
      | MapClaims m =>
          match json_Marshal m with
          | None => None
          | Some body =>
              Some (strings.Join [EncodeSegment header; EncodeSegment body] ".")
          end
      end
  end.

(** [Token.SignedString] *)
Definition SignedString (t : Token) (key : bytes) : option string :=
  match SigningString t with
  | None => None
  | Some sstr =>
      match Method t with
      | None => None
      | Some m =>
          match Sign m sstr key with
          | None => None
          | Some sig => Some (strings.Join [sstr; sig] ".")
          end
      end
  end.

Definition empty_token (raw : string) : Token :=
  {| Raw := raw; Method := None; Header := ∅; claims := MapClaims ∅;
     Signature := EmptyString; Valid := false |}.

Definition malformed : option ValidationError :=
  Some (NewValidationError ValidationErrorMalformed).
Definition unverifiable : option ValidationError :=
  Some (NewValidationError ValidationErrorUnverifiable).

(** [Parser.ParseUnverified] with [MapClaims{}]: the token, the segments and
    the error. *)
Definition ParseUnverified (tokenString : string)
    : option Token * list string * option ValidationError :=
  let parts := strings.Split tokenString "."%char in
  if negb (length parts =? 3)%nat then (None, parts, malformed)
  else
    let token := empty_token tokenString in
    match DecodeSegment (nth 0 parts EmptyString) with
    | None => (Some token, parts, malformed)
    | Some headerBytes =>
        match json_Unmarshal headerBytes with
        | None => (Some token, parts, malformed)
        | Some header =>
            let token := {| Raw := Raw token; Method := None; Header := header;
                            claims := claims token; Signature := EmptyString;
                            Valid := false |} in
            match DecodeSegment (nth 1 parts EmptyString) with
            | None => (Some token, parts, malformed)
            | Some claimBytes =>
                match json_Decode claimBytes with
                | None => (Some token, parts, malformed)
                | Some c =>
                    let token := {| Raw := Raw token; Method := None;
                                    Header := header; claims := MapClaims c;
                                    Signature := EmptyString; Valid := false |} in
                    match header !! "alg" with
                    | Some (Str method) =>
                        match GetSigningMethod method with
                        | None => (Some token, parts, unverifiable)
                        | Some m =>
                            (Some {| Raw := Raw token; Method := Some m;
                                     Header := header; claims := MapClaims c;
                                     Signature := EmptyString; Valid := false |},
                             parts, None)
                        end
                    | _ => (Some token, parts, unverifiable)
                    end
                end
            end
        end
    end.

(** [jwt.Parse(tokenString, keyFunc)] at Unix time [now], for a key function
    that returns a byte slice or an error. *)
Definition Parse (now : Z) (tokenString : string)
    (keyFunc : Token -> bytes + string)
    : option Token * option ValidationError :=
  match ParseUnverified tokenString with
  | (token, _, Some e) => (token, Some e)
  | (None, _, None) => (None, malformed)
  | (Some token, parts, None) =>
      match keyFunc token with
      | inr _ => (Some token, unverifiable)
      | inl key =>
          let vErr :=
            match claims token with
            | MapClaims m => MapClaims_Valid m now
            | OtherClaims => ValidationErrorClaimsInvalid
            end in
          let signature := nth 2 parts EmptyString in
          let token := {| Raw := Raw token; Method := Method token;
                          Header := Header token; claims := claims token;
                          Signature := signature; Valid := false |} in
          let verified :=
            match Method token with
            | Some m => Verify m (strings.Join (firstn 2 parts) ".") signature key
            | None => false
            end in
          let vErr := if verified then vErr
                      else Z.lor vErr ValidationErrorSignatureInvalid in
          if vErr =? 0
          then (Some {| Raw := Raw token; Method := Method token;
                        Header := Header token; claims := claims token;
                        Signature := signature; Valid := true |}, None)
          else (Some token, Some (NewValidationError vErr))
      end
  end.

(** The JSON codec reads back, with [read], the object [m] it wrote. *)
Definition reads_back (read : bytes -> option (gmap string any))
    (m : gmap string any) : Prop :=
  exists b, json_Marshal m = Some b /\ read b = Some m.

End Codec.
End jwt.

(** ** Package [fiber]: the request context *)
Module fiber.
Section Fiber.
Context `{GoFloat}.

(** What a handler has sent. *)
Inductive Body : Type :=
| NoBody
| JSONBody (v : any)               (* c.JSON(v) *)
| BytesBody (b : bytes).           (* c.Send(b) *)

(** [fiber.Ctx]: the request (headers, route parameters, raw body), the
    request-scoped [Locals], and the response written so far. *)
Record Ctx := mkCtx {
  reqHeaders : gmap string string;
  reqParams : gmap string string;
  reqBody : bytes;
  locals : gmap string any;
  status : Z;
  body : Body
}.

(** [c.Get(key)]: the empty string for a header that is not there. *)
Definition Get (c : Ctx) (key : string) : string :=
  default EmptyString (reqHeaders c !! key).

(** [c.Locals(key)] and [c.Locals(key, value)] *)
Definition Locals (c : Ctx) (key : string) : any :=
  default Nil (locals c !! key).

Definition SetLocals (c : Ctx) (key : string) (value : any) : Ctx :=
  {| reqHeaders := reqHeaders c; reqParams := reqParams c; reqBody := reqBody c;
     locals := <[ key := value ]> (locals c);
     status := status c; body := body c |}.

(** [c.Status(code)] *)
Definition Status (c : Ctx) (code : Z) : Ctx :=
  {| reqHeaders := reqHeaders c; reqParams := reqParams c; reqBody := reqBody c;
     locals := locals c; status := code; body := body c |}.

Definition SetBody (c : Ctx) (b : Body) : Ctx :=
  {| reqHeaders := reqHeaders c; reqParams := reqParams c; reqBody := reqBody c;
     locals := locals c; status := status c; body := b |}.

(** [fiber.Map] *)
Definition Map (entries : list (string * any)) : any :=
  Obj (list_to_map entries).

End Fiber.
End fiber.

(** [net/http] status codes *)
Module http.
Definition StatusOK : Z := 200.
Definition StatusCreated : Z := 201.
Definition StatusAccepted : Z := 202.
Definition StatusBadRequest : Z := 400.
Definition StatusUnauthorized : Z := 401.
Definition StatusInternalServerError : Z := 500.
End http.

(** ** Package [web] *)
Module web.
Import primitive fiber http.

(** Request payloads of package [common], as far as the handlers read them. *)
Record LoginRequest := mkLoginRequest { Username : string; Password : string }.
Record SceneRequest := mkSceneRequest { SceneID : string }.

Section Web.
Context `{GoFloat} `{!jwt.Libraries}.

(** What lies outside the file: request validation and parsing (other files
    of the package, one validation per request type), the client service
    with the state [Backend] behind it, the file system, and the formatting
    of logged values.  An error is its message.  [LoginUser] returns the
    identity of the user in the string form that goes into the token. *)
Class Services := {
  Backend : Type;
  VideoUploadRequest : Type;
  ValidateLogin : Ctx -> LoginRequest + string;
  ValidateMetadata : Ctx -> SceneRequest + string;
  ValidateThumbnail : Ctx -> SceneRequest + string;
  ValidateName : Ctx -> SceneRequest + string;
  ParseVideoUploadRequest : Ctx -> VideoUploadRequest + string;
  LoginUser : string -> string -> Backend -> (string + string) * Backend;
  HandleIncomingVideo :
    ObjectID -> VideoUploadRequest -> Backend -> (any + string) * Backend;
  GetSceneMetadata : ObjectID -> ObjectID -> Backend -> (any + string) * Backend;
  GetUserSceneHistory : ObjectID -> Backend -> (any + string) * Backend;
  GetSceneThumbnailPath :
    ObjectID -> ObjectID -> Backend -> (string + string) * Backend;
  GetSceneName : ObjectID -> ObjectID -> Backend -> (string + string) * Backend;
  ReadFile : string -> Backend -> bytes + string;
  Sprint : forall A : Type, A -> string
}.
Arguments Sprint {_ _} _.
Context `{Services}.

(** [WebServer]: the secret; its other fields are the handles to what
    [Services] and the state below stand for (the fiber app, the client
    service, the queue manager, the logger). *)
Record WebServer := mkWebServer {
  jwtSecret : string
}.

(** The state a handler runs in: the request context it was passed, the
    lines logged, the clock, and the state behind the client service. *)
Record State := mkState {
  ctx : Ctx;
  logged : list (list string);
  now : Z;
  backend : Backend
}.

(** The result of running a piece of a handler: a value and the state, or a
    panic. *)
Inductive Outcome (A : Type) : Type :=
| Returned (a : A) (st : State)
| Panicked (st : State).
Arguments Returned {A} a st.
Arguments Panicked {A} st.

Definition M (A : Type) : Type := State -> Outcome A.

#[export] Instance M_ret : MRet M := fun A a st => Returned a st.
#[export] Instance M_bind : MBind M := fun A B f m st =>
  match m st with
  | Returned a st' => f a st'
  | Panicked st' => Panicked st'
  end.

Definition panic {A} : M A := fun st => Panicked st.

Definition getCtx : M Ctx := fun st => Returned (ctx st) st.
Definition putCtx (c : Ctx) : M unit := fun st =>
  Returned tt {| ctx := c; logged := logged st; now := now st;
                 backend := backend st |}.

(** [s.logger.Info(args...)] (and [Infof], with the arguments formatted). *)
Definition Info (args : list string) : M unit := fun st =>
  Returned tt {| ctx := ctx st; logged := logged st ++ [args]; now := now st;
                 backend := backend st |}.

(** [time.Now().Unix()] *)
Definition Now : M Z := fun st => Returned (now st) st.

(** A call of the client service. *)
Definition call {A} (f : Backend -> A * Backend) : M A := fun st =>
  let '(a, b) := f (backend st) in
  Returned a {| ctx := ctx st; logged := logged st; now := now st; backend := b |}.

(** Go's [error], by its message; [None] is nil. *)
Abbreviation error := (option string).

(** [fiber.Handler] *)
Abbreviation Handler := (M error).

(** [return c.Status(code).JSON(v)] *)
Definition respond_JSON (code : Z) (v : any) : Handler :=
  c ← getCtx;
  putCtx (SetBody (Status c code) (JSONBody v));;
  mret None.

(** [return c.Status(code).Send(b)] *)
Definition respond_Send (code : Z) (b : bytes) : Handler :=
  c ← getCtx;
  putCtx (SetBody (Status c code) (BytesBody b));;
  mret None.

(** [c.Locals(key).(string)]: the assertion panics on any other value. *)
Definition Locals_string (key : string) : M string :=
  c ← getCtx;
  match Locals c key with
  | Str s => mret s
  | _ => panic
  end.

(** The key function [tokenRequired] passes to [jwt.Parse]: the secret,
    whatever the token. *)
Definition keyFunc (s : WebServer) : jwt.Token -> bytes + string :=
  fun token => inl (list_ascii_of_string (jwtSecret s)).

(** [tokenRequired] is a middleware that checks for a valid JWT token in
    the Authorization header, of the form [Bearer <token>].  The user ID in
    the token's [sub] claim is not validated; it is stored in the request
    context for the handler. *)
Definition tokenRequired (s : WebServer) (handler : Handler) : Handler :=
  c ← getCtx;
  let authHeader := Get c "Authorization" in
  if String.eqb authHeader EmptyString then
    Info ["Missing Authorization header"];;
    respond_JSON StatusUnauthorized
      (Map [("error", Str "Missing Authorization header")])
  else
    let parts := strings.Split authHeader " "%char in
    if negb (length parts =? 2)%nat
       || negb (String.eqb (nth 0 parts EmptyString) "Bearer") then
      Info ["Invalid Authorization header format. Expected: `Bearer <token>`"];;
      respond_JSON StatusUnauthorized
        (Map [("error",
               Str "Invalid Authorization header format. Expected: `Bearer <token>`")])
    else
      let tokenString := nth 1 parts EmptyString in
      t ← Now;
      let '(token, err) :=
        jwt.Parse t tokenString (keyFunc s) in
      match err, token with
      | Some _, _ =>
          Info ["Invalid token"];;
          respond_JSON StatusUnauthorized (Map [("error", Str "Invalid token")])
      | None, None => panic                  (* [token.Valid] on a nil token *)
      | None, Some token =>
          if negb (jwt.Valid token) then
            Info ["Invalid token"];;
            respond_JSON StatusUnauthorized (Map [("error", Str "Invalid token")])
          else
            match jwt.claims token with
            | jwt.OtherClaims =>
                Info ["Invalid token claims"];;
                respond_JSON StatusUnauthorized
                  (Map [("error", Str "Invalid token claims")])
            | jwt.MapClaims claims =>
                match claims !! "sub" with
                | Some (Str userID) =>
                    putCtx (SetLocals c "userID" (Str userID));;
                    handler
                | _ =>
                    Info ["Invalid user ID in token"];;
                    respond_JSON StatusUnauthorized
                      (Map [("error", Str "Invalid user ID in token")])
                end
            end
      end.

Definition newline : string := String "010"%char EmptyString.

(** [loginUser] handles the login request. *)
Definition loginUser (s : WebServer) : Handler :=
  Info ["Login request received"];;
  c ← getCtx;
  match ValidateLogin c with
  | inr err =>
      Info ["Login request validation failed:"; err];;
      respond_JSON StatusBadRequest (Map [("error", Str err)])
  | inl req =>
      Info ["Login request validated"];;
      r ← call (LoginUser (Username req) (Password req));
      match r with
      | inr err =>
          Info ["User login failed:"; err];;
          respond_JSON StatusUnauthorized (Map [("error", Str err)])
      | inl userID =>
          Info ["User logged in"];;
          let token := jwt.NewWithClaims jwt.SigningMethodHS256
                         (jwt.MapClaims {[ "sub" := Str userID ]}) in
          match jwt.SignedString token (list_ascii_of_string (jwtSecret s)) with
          | None =>
              Info ["Failed to generate token"];;
              respond_JSON StatusInternalServerError
                (Map [("error", Str "Failed to generate token")])
          | Some tokenString =>
              Info ["JWT token generated, userID " ++ userID ++ newline];;
              respond_JSON StatusOK (Map [("jwtToken", Str tokenString)])
          end
      end
  end.

(** [receiveVideo] handles the video upload request; a JWT protected route. *)
Definition receiveVideo (s : WebServer) : Handler :=
  Info ["Video upload request received"];;
  local ← Locals_string "userID";
  match ObjectIDFromHex local with
  | inr err =>
      Info ["Invalid user ID:"; Sprint err];;
      respond_JSON StatusBadRequest (Map [("error", Str "Invalid user ID")])
  | inl userID =>
      c ← getCtx;
      match ParseVideoUploadRequest c with
      | inr err =>
          Info ["Video upload request parsing failed:"; err];;
          respond_JSON StatusBadRequest (Map [("error", Str err)])
      | inl req =>
          r ← call (HandleIncomingVideo userID req);
          match r with
          | inr err =>
              Info ["Video processing failed:"; err];;
              respond_JSON StatusBadRequest (Map [("error", Str err)])
          | inl sceneID =>
              Info ["Video received and processing scene " ++ Sprint sceneID
                    ++ ". Check back later for updates." ++ newline];;
              respond_JSON StatusAccepted
                (Map [("id", sceneID);
                      ("message",
                       Str "Video received and processing scene. Check back later for updates.")])
          end
      end
  end.

(** [getSceneMetadata] handles the request to get the metadata for a scene;
    a JWT protected route. *)
Definition getSceneMetadata (s : WebServer) : Handler :=
  Info ["Get job data request received"];;
  c ← getCtx;
  match ValidateMetadata c with
  | inr err =>
      Info ["Get job data request validation failed:"; err];;
      respond_JSON StatusBadRequest (Map [("error", Str err)])
  | inl req =>
      Info ["Request data:"; Sprint req];;
      local ← Locals_string "userID";
      match ObjectIDFromHex local with
      | inr err =>
          Info ["Invalid user ID:"; Sprint err];;
          respond_JSON StatusBadRequest (Map [("error", Str "Invalid user ID")])
      | inl userID =>
          match ObjectIDFromHex (SceneID req) with
          | inr err =>
              Info ["Invalid job ID:"; Sprint err];;
              respond_JSON StatusBadRequest (Map [("error", Str "Invalid job ID")])
          | inl sceneID =>
              r ← call (GetSceneMetadata userID sceneID);
              match r with
              | inr err =>
                  Info ["Failed to get job data:"; err];;
                  respond_JSON StatusInternalServerError (Map [("error", Str err)])
              | inl sceneData =>
                  Info ["Job data retrieved successfully, data: "
                        ++ Sprint sceneData];;
                  respond_JSON StatusOK sceneData
              end
          end
      end
  end.

(** [getUserSceneHistory] handles the request to get the history of scenes
    for a user; a JWT protected route. *)
Definition getUserSceneHistory (s : WebServer) : Handler :=
  Info ["Get user history request received"];;
  local ← Locals_string "userID";
  match ObjectIDFromHex local with
  | inr err =>
      Info ["Invalid user ID:"; Sprint err];;
      respond_JSON StatusBadRequest (Map [("error", Str "Invalid user ID")])
  | inl userID =>
      r ← call (GetUserSceneHistory userID);
      match r with
      | inr err =>
          Info ["Failed to get user history:"; err];;
          respond_JSON StatusInternalServerError (Map [("error", Str err)])
      | inl sceneIDList =>
          Info ["User history retrieved successfully"];;
          respond_JSON StatusOK (Map [("resources", sceneIDList)])
      end
  end.

(** [getSceneThumbnail] handles the request to get the thumbnail for a
    scene; a JWT protected route. *)
Definition getSceneThumbnail (s : WebServer) : Handler :=
  Info ["Get scene thumbnail request received"];;
  c ← getCtx;
  match ValidateThumbnail c with
  | inr err =>
      Info ["Get scene thumbnail request validation failed:"; err];;
      respond_JSON StatusBadRequest (Map [("error", Str err)])
  | inl req =>
      local ← Locals_string "userID";
      match ObjectIDFromHex local with
      | inr err =>
          Info ["Invalid user ID:"; Sprint err];;
          respond_JSON StatusBadRequest (Map [("error", Str "Invalid user ID")])
      | inl userID =>
          match ObjectIDFromHex (SceneID req) with
          | inr err =>
              Info ["Invalid scene ID:"; Sprint err];;
              respond_JSON StatusBadRequest (Map [("error", Str "Invalid scene ID")])
          | inl sceneID =>
              r ← call (GetSceneThumbnailPath userID sceneID);
              match r with
              | inr err =>
                  Info ["Failed to get scene thumbnail:"; err];;
                  respond_JSON StatusInternalServerError (Map [("error", Str err)])
              | inl thumbnailPath =>
                  file ← call (fun b => (ReadFile thumbnailPath b, b));
                  match file with
                  | inr err =>
                      Info ["Failed to read thumbnail data:"; err];;
                      respond_JSON StatusInternalServerError
                        (Map [("error", Str err)])
                  | inl thumbnailData =>
                      Info ["Scene thumbnail retrieved successfully"];;
                      respond_Send StatusOK thumbnailData
                  end
              end
          end
      end
  end.

(** [getSceneName] handles the request to get the name of a scene; a JWT
    protected route. *)
Definition getSceneName (s : WebServer) : Handler :=
  c ← getCtx;
  match ValidateName c with
  | inr err => respond_JSON StatusBadRequest (Map [("error", Str err)])
  | inl req =>
      match ObjectIDFromHex (SceneID req) with
      | inr _ =>
          respond_JSON StatusBadRequest (Map [("error", Str "Invalid scene ID")])
      | inl sceneID =>
          local ← Locals_string "userID";
          match ObjectIDFromHex local with
          | inr _ =>
              respond_JSON StatusBadRequest (Map [("error", Str "Invalid user ID")])
          | inl userID =>
              r ← call (GetSceneName userID sceneID);
              match r with
              | inr err =>
                  respond_JSON StatusInternalServerError (Map [("error", Str err)])
              | inl sceneName =>
                  respond_JSON StatusOK (Map [("scene_name", Str sceneName)])
              end
          end
      end
  end.

(** The protected routes of [SetupRoutes], each behind [tokenRequired]. *)
Definition protected_handlers (s : WebServer) : list Handler :=
  [receiveVideo s; getUserSceneHistory s; getSceneMetadata s;
   getSceneThumbnail s; getSceneName s].

(** *** The outcomes of the gateway *)

Definition with_ctx (st : State) (c : Ctx) : State :=
  {| ctx := c; logged := logged st; now := now st; backend := backend st |}.

(** The state after the gateway has answered [Unauthorized] with [msg]. *)
Definition unauthorized (msg : string) (st : State) : State :=
  {| ctx := SetBody (Status (ctx st) StatusUnauthorized)
              (JSONBody (Map [("error", Str msg)]));
     logged := logged st ++ [[msg]];
     now := now st;
     backend := backend st |}.

(** The state in which the gateway invokes the handler: the owner identity
    bound under [userID]. *)
Definition bound (userID : string) (st : State) : State :=
  with_ctx st (SetLocals (ctx st) "userID" (Str userID)).

(** Every check of the gateway passes, and the [sub] claim is [userID]. *)
Definition checks_pass (s : WebServer) (st : State) (userID : string) : Prop :=
  let authHeader := Get (ctx st) "Authorization" in
  authHeader <> EmptyString /\
  exists tokenString token claims,
    strings.Split authHeader " "%char = ["Bearer"; tokenString] /\
    jwt.Parse (now st) tokenString (keyFunc s) = (Some token, None) /\
    jwt.Valid token = true /\
    jwt.claims token = jwt.MapClaims claims /\
    claims !! "sub" = Some (Str userID).

(** The gateway answers [Unauthorized] with [msg], whatever the handler. *)
Definition rejects (s : WebServer) (st : State) (msg : string) : Prop :=
  forall handler : M (option string),
    tokenRequired s handler st = Returned None (unauthorized msg st).

(** The gateway hands over to the handler, with [userID] bound. *)
Definition invokes (s : WebServer) (st : State) (userID : string) : Prop :=
  forall handler : M (option string),
    tokenRequired s handler st = handler (bound userID st).


(** The owner identity of the round trip, its claims and the header of the
    token [loginUser] builds for it. *)
Definition owner : string := "507f1f77bcf86cd799439011".
Definition owner_claims : gmap string any := {[ "sub" := Str owner ]}.
Definition hs256_header : gmap string any :=
  jwt.Header (jwt.NewWithClaims jwt.SigningMethodHS256 (jwt.MapClaims owner_claims)).

End Web.

(** Twenty-four hex characters: the form of an object identifier. *)
Definition is_hex_digit (c : ascii) : bool :=
  let n := N_of_ascii c in
  ((48 <=? n) && (n <=? 57) || (97 <=? n) && (n <=? 102)
   || (65 <=? n) && (n <=? 70))%N.

Definition is_hex24 (userID : string) : bool :=
  (String.length userID =? 24)%nat
  && forallb is_hex_digit (list_ascii_of_string userID).

Arguments Returned {_ _ A} a st.
Arguments Panicked {_ _ A} st.
Arguments Sprint {_ _ A} _.
Abbreviation error := (option string).
Abbreviation Handler := (M error).

End web.

(** ** One call of a setter *)
Module calls.
Import primitive mongo scene.

Section Calls.
Context `{Payloads}.

(** A call of one of the five field setters, with its argument. *)
Inductive Write : Type :=
| WriteTrainingConfig (config : option TrainingConfig)
| WriteVideo (vid : option Video)
| WriteSfm (sfm : option Sfm)
| WriteNerf (nerf : option Nerf)
| WriteSceneName (name : string).

(** The field the call sets, and the value it sets it to. *)
Definition field (w : Write) : string :=
  match w with
  | WriteTrainingConfig _ => "config"
  | WriteVideo _ => "video"
  | WriteSfm _ => "sfm"
  | WriteNerf _ => "nerf"
  | WriteSceneName _ => "name"
  end.

Definition value (w : Write) : bval :=
  match w with
  | WriteTrainingConfig config => enc_ptr BConfig config
  | WriteVideo vid => enc_ptr BVideo vid
  | WriteSfm sfm => enc_ptr BSfm sfm
  | WriteNerf nerf => enc_ptr BNerf nerf
  | WriteSceneName name => BString name
  end.

Definition write {C} `{!Collection C} (ctx : Context) (sm : SceneManager C)
    (id : ObjectID) (w : Write) : error * SceneManager C :=
  match w with
  | WriteTrainingConfig config => SetTrainingConfig ctx sm id config
  | WriteVideo vid => SetVideo ctx sm id vid
  | WriteSfm sfm => SetSfm ctx sm id sfm
  | WriteNerf nerf => SetNerf ctx sm id nerf
  | WriteSceneName name => SetSceneName ctx sm id name
  end.

(** A getter hands back a value or an error, never both and never
    neither. *)
Definition value_xor_error {A} (r : option A * error) : Prop :=
  (is_Some r.1 /\ r.2 = None) \/ (r.1 = None /\ is_Some r.2).

(** What a getter makes of the error of the find. *)
Definition reported (e : driver_error) : err :=
  if decide (e = ErrNoDocuments) then ErrSceneNotFound else FromDriver e.

End Calls.
End calls.

(** ** What the gateway lets through *)
Module tokens.
Import primitive fiber http web.
Section Tokens.
Context `{GoFloat} `{!jwt.Libraries} `{!Services}.

(** The compact token [h.c.g] is one the server takes, at time [t], for the
    identity [userID]: the header names an HMAC method, the claims pass the
    validation and hold [userID] as [sub], and the third segment is the MAC
    of the first two under the server's secret. *)
Definition well_signed (s : WebServer) (t : Z) (h c g userID : string) : Prop :=
  exists header cl name hash,
    jwt.DecodeSegment h ≫= jwt.json_Unmarshal = Some header /\
    header !! "alg" = Some (Str name) /\
    jwt.GetSigningMethod name = Some (jwt.SigningMethodHMAC name hash) /\
    jwt.DecodeSegment c ≫= jwt.json_Decode = Some cl /\
    jwt.MapClaims_Valid cl t = 0 /\
    cl !! "sub" = Some (Str userID) /\
    jwt.DecodeSegment g
    = Some (jwt.hmac_Sum hash (list_ascii_of_string (jwtSecret s))
              (list_ascii_of_string (h ++ "." ++ c))).

(** The status codes with which the protected handlers answer. *)
Definition handler_statuses : list Z :=
  [StatusOK; StatusAccepted; StatusBadRequest; StatusInternalServerError].

(** The request behind the gateway ends, without a panic, in [st']. *)
Definition ends_in (s : WebServer) (st : State) (handler : M (option string))
    (st' : State) : Prop :=
  tokenRequired s handler st = Returned None st'.

End Tokens.
End tokens.

(** ** Package [web]: the routes outside the gateway, and the routing table *)
Module webapp.
Import primitive fiber http web.

(** [common.RegisterRequest], as far as [registerUser] reads it. *)
Record RegisterRequest := mkRegisterRequest {
  Username : string;
  Password : string
}.

(** The error of [os.Stat], as [os.IsNotExist] tells it apart. *)
Inductive PathError : Type :=
| ErrNotExist
| ErrOther (msg : string).

(** [os.IsNotExist(err)]: false for nil. *)
Definition IsNotExist (err : option PathError) : bool :=
  match err with
  | Some ErrNotExist => true
  | _ => false
  end.

(** [fiber.StatusNotFound] *)
Definition StatusNotFound : Z := 404.

(** [os.ModePerm], 0o777 *)
Definition ModePerm : Z := 511.

Section App.
Context `{GoFloat} `{!jwt.Libraries} `{!Services}.

(** What these handlers take from outside the file, beside [Services]: the
    validation of a register request and the registration by the client
    service; [filepath.Join] and [os.Stat]; the address of the client; the
    sending of a file, which writes the response and may fail; and the
    routes of the fiber app as [GetRoutes] lists them; and [os.MkdirAll],
    which works on the file system behind [Backend]. *)
Class Platform := {
  ValidateRegister : Ctx -> RegisterRequest + string;
  RegisterUser : string -> string -> Backend -> option string * Backend;
  filepath_Join : string -> string -> string;
  os_Stat : string -> Backend -> option PathError;
  os_MkdirAll : string -> Z -> Backend -> option string * Backend;
  IP : Ctx -> string;
  SendFile : string -> Ctx -> Backend -> Ctx * option string;
  GetRoutes : any
}.
Context `{Platform}.

(** [c.Params(key)]: the empty string for a parameter that is not there. *)
Definition Params (c : Ctx) (key : string) : string :=
  default EmptyString (reqParams c !! key).

(** [return c.SendString(body)] *)
Definition respond_SendString (body : string) : Handler :=
  c ← getCtx;
  putCtx (SetBody c (BytesBody (list_ascii_of_string body)));;
  mret None.

(** [registerUser] handles the registration request. *)
Definition registerUser (s : WebServer) : Handler :=
  Info ["Register request received"];;
  c ← getCtx;
  match ValidateRegister c with
  | inr err =>
      Info ["Register request validation failed:"; err];;
      respond_JSON StatusBadRequest (Map [("error", Str err)])
  | inl req =>
      err ← call (RegisterUser (Username req) (Password req));
      match err with
      | Some err =>
          Info ["User registration failed:"; err];;
          respond_JSON StatusBadRequest (Map [("error", Str err)])
      | None =>
          Info ["User registered successfully"];;
          respond_JSON StatusCreated (Map [("message", Str "User created")])
      end
  end.

(** [getWorkerData] handles the request to send data between workers.
    [Errorf] is logged as [Info] is. *)
Definition getWorkerData (s : WebServer) : Handler :=
  Info ["Get worker data request received"];;
  c ← getCtx;
  let path := Params c "path" in
  if String.eqb path EmptyString then
    Info ["Invalid path parameter"];;
    respond_JSON StatusBadRequest (Map [("error", Str "Invalid path parameter")])
  else
    let basePath := EmptyString in
    Info ["Base path: " ++ basePath];;
    let fullPath := filepath_Join basePath path in
    Info ["Full path: " ++ fullPath];;
    Info ["Attempting to send worker data from path: " ++ fullPath];;
    Info ["to address: " ++ IP c];;
    err ← call (fun b => (os_Stat fullPath b, b));
    if IsNotExist err then
      Info ["File not found: " ++ fullPath];;
      c ← getCtx;
      putCtx (Status c StatusNotFound);;
      respond_SendString "File not found"
    else
      fun st =>
        let '(c', err) := SendFile fullPath (ctx st) (backend st) in
        Returned err (with_ctx st c').

(** [getRoutes] handles the request to get the list of routes available on
    the server. *)
Definition getRoutes (s : WebServer) : Handler :=
  Info ["Get routes request received"];;
  let routes := GetRoutes in
  respond_JSON StatusOK routes.

(** [healthCheck] handles the request to check the health of the server. *)
Definition healthCheck (s : WebServer) : Handler :=
  Info ["Health check request received"];;
  respond_SendString "OK".

(** [fiber.Route], and the app as the list of its routes in the order of
    their registration.  [app.Get] registers the handler for [HEAD] too. *)
Record Route := mkRoute {
  Method : string;
  Path : string;
  Handlers : Handler
}.

Definition app_Post (app : list Route) (path : string) (handler : Handler)
    : list Route :=
  app ++ [mkRoute "POST" path handler].

Definition app_Get (app : list Route) (path : string) (handler : Handler)
    : list Route :=
  app ++ [mkRoute "HEAD" path handler; mkRoute "GET" path handler].

(** [SetupRoutes] sets up the routes for the web server. *)
Definition SetupRoutes (s : WebServer) (app : list Route) : list Route :=
  let app := app_Post app "/login" (loginUser s) in
  let app := app_Post app "/register" (registerUser s) in
  let app := app_Post app "/video" (tokenRequired s (receiveVideo s)) in
  let app := app_Get app "/routes" (getRoutes s) in
  let app := app_Get app "/health" (healthCheck s) in
  let app := app_Get app "/worker-data/:path" (getWorkerData s) in
  let app := app_Get app "/history" (tokenRequired s (getUserSceneHistory s)) in
  let app := app_Get app "/data/scene/metadata/:scene_id"
               (tokenRequired s (getSceneMetadata s)) in
  let app := app_Get app "/data/scene/thumbnail/:scene_id"
               (tokenRequired s (getSceneThumbnail s)) in
  let app := app_Get app "/data/scene/name/:scene_id"
               (tokenRequired s (getSceneName s)) in
  app.

(** [if err != nil { s.logger.Info(msg, err.Error()) }] *)
Definition log_failure (msg : string) (err : option string) : M unit :=
  match err with
  | Some e => Info [msg; e]
  | None => mret tt
  end.

(** [SetupFileStructure] creates the necessary directories for storing data
    files. *)
Definition SetupFileStructure (s : WebServer) : M unit :=
  let dataDir := "/data" in
  let sfmDir := filepath_Join dataDir "sfm" in
  let nerfDir := filepath_Join dataDir "nerf" in
  let rawDir := filepath_Join dataDir "raw" in
  err ← call (os_MkdirAll sfmDir ModePerm);
  log_failure "Failed to create sfm directory:" err;;
  err ← call (os_MkdirAll nerfDir ModePerm);
  log_failure "Failed to create nerf directory:" err;;
  err ← call (os_MkdirAll rawDir ModePerm);
  log_failure "Failed to create raw directory:" err.

(** The lines [SetupFileStructure] logs for the errors of the three
    attempts. *)
Definition failures (sfm nerf raw : option string) : list (list string) :=
  match sfm with Some e => [["Failed to create sfm directory:"; e]] | None => [] end
  ++ match nerf with Some e => [["Failed to create nerf directory:"; e]] | None => [] end
  ++ match raw with Some e => [["Failed to create raw directory:"; e]] | None => [] end.

(** The paths [SetupRoutes] serves without the gateway. *)
Definition open_paths : list string :=
  ["/login"; "/register"; "/routes"; "/health"; "/worker-data/:path"].

End App.
End webapp.

(** ** A small world for the examples

    Concrete scenes, and instances of the interfaces above on which the
    handlers can be run: a JSON codec for flat objects of strings, a keyed
    checksum in the place of the HMAC, and a client service with one user. *)
Module example.
Import primitive fiber http.

(** *** Scenes *)

(** Sub-resources as plain strings. *)
Definition text_payloads : scene.Payloads :=
  {| scene.Video := string; scene.Sfm := string; scene.Nerf := string;
     scene.TrainingConfig := string; scene.Logger := unit |}.

(** A manager over a collection holding one scene, 7, with only a video. *)
Definition one_scene : scene.SceneManager (H:=text_payloads) scene.Docs :=
  @scene.mkSceneManager text_payloads scene.Docs
    {[ 7%N := {[ "video" := scene.BVideo (H:=text_payloads) "raw/7.mp4" ]} ]}
    tt.

(** A manager over a collection holding one scene, 9, with only a name. *)
Definition named_scene : scene.SceneManager (H:=text_payloads) scene.Docs :=
  @scene.mkSceneManager text_payloads scene.Docs
    {[ 9%N := {[ "name" := scene.BString (H:=text_payloads) "garden" ]} ]}
    tt.

(** A manager over the driver whose upsert reports nothing. *)
Definition silent_manager : scene.SceneManager (H:=text_payloads) unit :=
  @scene.mkSceneManager text_payloads unit tt tt.

(** *** Requests *)

Definition floats : GoFloat := {| float64 := Z |}.
#[local] Existing Instance floats.

Definition quote : ascii := "034"%char.

(** ["k":"v"] *)
Definition write_member (kv : string * any) : option string :=
  match kv.2 with
  | Str v =>
      Some (String quote kv.1 ++ String quote (String ":"%char (String quote v))
            ++ String quote EmptyString)
  | _ => None
  end.

Fixpoint write_members (kvs : list (string * any)) : option (list string) :=
  match kvs with
  | [] => Some []
  | kv :: rest =>
      match write_member kv, write_members rest with
      | Some m, Some ms => Some (m :: ms)
      | _, _ => None
      end
  end.

Definition write_object (m : gmap string any) : option bytes :=
  match write_members (map_to_list m) with
  | Some members =>
      Some (list_ascii_of_string
              (String "{"%char (strings.Join members ",") ++ "}"))
  | None => None
  end.

(** The text up to the next quote, and what follows the quote. *)
Fixpoint read_text (s : string) : option (string * string) :=
  match s with
  | EmptyString => None
  | String c rest =>
      if Ascii.eqb c quote then Some (EmptyString, rest)
      else match read_text rest with
           | Some (text, rest') => Some (String c text, rest')
           | None => None
           end
  end.

Fixpoint read_members (fuel : nat) (s : string) (acc : gmap string any)
    : option (gmap string any) :=
  match fuel with
  | O => None
  | S fuel =>
      match s with
      | String q s1 =>
          if negb (Ascii.eqb q quote) then None
          else match read_text s1 with
               | Some (k, String colon (String q' s2)) =>
                   if negb (Ascii.eqb colon ":"%char && Ascii.eqb q' quote) then None
                   else match read_text s2 with
                        | Some (v, String sep s3) =>
                            let acc := <[ k := Str v ]> acc in
                            if Ascii.eqb sep ","%char then read_members fuel s3 acc
                            else if Ascii.eqb sep "}"%char
                            then match s3 with
                                 | EmptyString => Some acc
                                 | _ => None
                                 end
                            else None
                        | _ => None
                        end
               | _ => None
               end
      | EmptyString => None
      end
  end.

Definition read_object (b : bytes) : option (gmap string any) :=
  match string_of_list_ascii b with
  | String open s =>
      if negb (Ascii.eqb open "{"%char) then None
      else if String.eqb s "}" then Some ∅
      else read_members (String.length s) s ∅
  | EmptyString => None
  end.

Definition mix (acc : Z) (c : ascii) : Z :=
  (acc * 257 + base64.uint c) mod 4294967296.

(** Four bytes of a checksum over the key and the message. *)
Definition keyed_sum (h : jwt.Hash) (key msg : bytes) : bytes :=
  let seed := match h with
              | jwt.SHA256 => 256
              | jwt.SHA384 => 384
              | jwt.SHA512 => 512
              end in
  let v := fold_left mix (key ++ msg ++ key) seed in
  [base64.byte (Z.shiftr v 24); base64.byte (Z.shiftr v 16);
   base64.byte (Z.shiftr v 8); base64.byte v].

(** The [exp] claim checked against the clock, when it is a number. *)
Definition time_claims (m : gmap string any) (now : Z) : Z :=
  match m !! "exp" with
  | Some (Float64 exp) => if (exp =? 0) || (now <=? exp) then 0 else 16
  | _ => 0
  end.

Definition libraries : jwt.Libraries :=
  {| jwt.hmac_Sum := keyed_sum;
     jwt.json_Marshal := write_object;
     jwt.json_Unmarshal := read_object;
     jwt.json_Decode := read_object;
     jwt.MapClaims_Valid := time_claims |}.
#[local] Existing Instance libraries.

Definition scene_request (c : Ctx) : web.SceneRequest + string :=
  match reqParams c !! "scene_id" with
  | Some id => inl {| web.SceneID := id |}
  | None => inr "scene_id is required"
  end.

(** One user, [ada], whose identity is the owner of the round trip. *)
Definition services : web.Services :=
  {| web.Backend := unit;
     web.VideoUploadRequest := unit;
     web.ValidateLogin := fun c =>
       inl {| web.Username := "ada"; web.Password := "lovelace" |};
     web.ValidateMetadata := scene_request;
     web.ValidateThumbnail := scene_request;
     web.ValidateName := scene_request;
     web.ParseVideoUploadRequest := fun c => inl tt;
     web.LoginUser := fun username password b =>
       if String.eqb username "ada" && String.eqb password "lovelace"
       then (inl "507f1f77bcf86cd799439011", b)
       else (inr "invalid credentials", b);
     web.HandleIncomingVideo := fun userID req b => (inl (Str "scene"), b);
     web.GetSceneMetadata := fun userID sceneID b => (inr "scene not found", b);
     web.GetUserSceneHistory := fun userID b => (inl (Arr []), b);
     web.GetSceneThumbnailPath := fun userID sceneID b =>
       (inr "scene not found", b);
     web.GetSceneName := fun userID sceneID b => (inr "scene not found", b);
     web.ReadFile := fun path b => inr "no such file";
     web.Sprint := fun A a => "?" |}.
#[local] Existing Instance services.

Definition server : web.WebServer := {| web.jwtSecret := "s3cret" |}.

(** A request with the given [Authorization] header, at time 1700000000. *)
Definition request (authorization : string) : web.State :=
  {| web.ctx := {| reqHeaders := {[ "Authorization" := authorization ]};
                   reqParams := ∅; reqBody := []; locals := ∅;
                   status := StatusOK; body := NoBody |};
     web.logged := [];
     web.now := 1700000000;
     web.backend := tt |}.


End example.

(** ** More of the small world: a deployment that cannot be reached, and
    tokens of other keys and methods *)
Module fixtures.
Import primitive mongo.

Definition timeout : driver_error := CommandError "server selection timeout".

(** A driver every call of which fails. *)
Definition unreachable : scene.Collection (H:=example.text_payloads) unit := {|
  scene.UpdateOne := fun ctx c f u o => (inr timeout, c);
  scene.FindOne := fun ctx c f => scene.SingleErr timeout;
  scene.DeleteOne := fun ctx c f => (inr timeout, c)
|}.

Definition unreachable_manager
    : scene.SceneManager (H:=example.text_payloads) unit :=
  @scene.mkSceneManager example.text_payloads unit tt tt.

#[local] Existing Instance example.floats.
#[local] Existing Instance example.libraries.
#[local] Existing Instance example.services.

(** The token a login of the owner yields. *)
Definition owner_token : string :=
  default EmptyString
    (jwt.SignedString
       (jwt.NewWithClaims jwt.SigningMethodHS256 (jwt.MapClaims web.owner_claims))
       (list_ascii_of_string (web.jwtSecret example.server))).

(** The same claims signed under another key, and signed with the server's
    secret by HS512. *)
Definition foreign_token : string :=
  default EmptyString
    (jwt.SignedString
       (jwt.NewWithClaims jwt.SigningMethodHS256 (jwt.MapClaims web.owner_claims))
       (list_ascii_of_string "another secret")).

Definition hs512_token : string :=
  default EmptyString
    (jwt.SignedString
       (jwt.NewWithClaims jwt.SigningMethodHS512 (jwt.MapClaims web.owner_claims))
       (list_ascii_of_string (web.jwtSecret example.server))).

End fixtures.

(** ** A world in which tokens carry an expiry

    The JSON codec of the examples, with numbers beside the strings, so that
    a token can hold an [exp] claim for the time validation to check. *)
Module dated.
Import primitive fiber http.

#[local] Existing Instance example.floats.

Definition is_digit (c : ascii) : bool :=
  let n := base64.uint c in (48 <=? n) && (n <=? 57).

(** The decimal digits of a number that is not negative. *)
Fixpoint write_digits (fuel : nat) (n : Z) (acc : string) : string :=
  match fuel with
  | O => acc
  | S fuel =>
      let acc := String (base64.byte (48 + n mod 10)) acc in
      if n / 10 =? 0 then acc else write_digits fuel (n / 10) acc
  end.

Fixpoint read_digits (s : string) (acc : Z) : Z * string :=
  match s with
  | String c rest =>
      if is_digit c then read_digits rest (10 * acc + (base64.uint c - 48))
      else (acc, s)
  | EmptyString => (acc, s)
  end.

(** ["k":"v"] or ["k":n] *)
Definition write_member (kv : string * any) : option string :=
  match kv.2 with
  | Str _ => example.write_member kv
  | Float64 n =>
      Some (String example.quote kv.1
            ++ String example.quote (String ":"%char (write_digits 20 n EmptyString)))
  | _ => None
  end.

Fixpoint write_members (kvs : list (string * any)) : option (list string) :=
  match kvs with
  | [] => Some []
  | kv :: rest =>
      match write_member kv, write_members rest with
      | Some m, Some ms => Some (m :: ms)
      | _, _ => None
      end
  end.

Definition write_object (m : gmap string any) : option bytes :=
  match write_members (map_to_list m) with
  | Some members =>
      Some (list_ascii_of_string
              (String "{"%char (strings.Join members ",") ++ "}"))
  | None => None
  end.

(** A value, and what follows it. *)
Definition read_value (s : string) : option (any * string) :=
  match s with
  | String c rest =>
      if Ascii.eqb c example.quote then
        match example.read_text rest with
        | Some (v, rest') => Some (Str v, rest')
        | None => None
        end
      else if is_digit c then
        let '(n, rest') := read_digits s 0 in Some (Float64 n, rest')
      else None
  | EmptyString => None
  end.

Fixpoint read_members (fuel : nat) (s : string) (acc : gmap string any)
    : option (gmap string any) :=
  match fuel with
  | O => None
  | S fuel =>
      match s with
      | String q s1 =>
          if negb (Ascii.eqb q example.quote) then None
          else match example.read_text s1 with
               | Some (k, String colon s2) =>
                   if negb (Ascii.eqb colon ":"%char) then None
                   else match read_value s2 with
                        | Some (v, String sep s3) =>
                            let acc := <[ k := v ]> acc in
                            if Ascii.eqb sep ","%char then read_members fuel s3 acc
                            else if Ascii.eqb sep "}"%char
                            then match s3 with
                                 | EmptyString => Some acc
                                 | _ => None
                                 end
                            else None
                        | _ => None
                        end
               | _ => None
               end
      | EmptyString => None
      end
  end.

Definition read_object (b : bytes) : option (gmap string any) :=
  match string_of_list_ascii b with
  | String open s =>
      if negb (Ascii.eqb open "{"%char) then None
      else if String.eqb s "}" then Some ∅
      else read_members (String.length s) s ∅
  | EmptyString => None
  end.

(** The libraries of the examples with this codec: the time validation is
    that of the examples, which checks [exp] against the clock. *)
Definition libraries : jwt.Libraries :=
  {| jwt.hmac_Sum := example.keyed_sum;
     jwt.json_Marshal := write_object;
     jwt.json_Unmarshal := read_object;
     jwt.json_Decode := read_object;
     jwt.MapClaims_Valid := example.time_claims |}.
#[local] Existing Instance libraries.



End dated.

(** * Properties of the scene store *)
Module SceneProperties.
Import primitive mongo scene.

Section Props.
Context `{Payloads}.
Implicit Types (ctx : Context) (id : ObjectID) (c : Docs) (sm : SceneManager Docs).

Lemma mem_upsert ctx c id key v :
  mem_UpdateOne ctx c (by_id id) (set_fields {[ key := v ]}) {| Upsert := true |}
  = (inl {| MatchedCount := match c !! id with Some _ => 1 | None => 0 end;
            UpsertedCount := match c !! id with Some _ => 0 | None => 1 end |},
     upserted c id key v).
Proof.
  unfold mem_UpdateOne, upserted.
  destruct (c !! id) as [d|]; simpl.
  - by rewrite <- insert_union_singleton_l.
  - by rewrite insert_empty.
Qed.

Lemma stored_upserted_eq c id key v :
  stored (upserted c id key v) id key = Some v.
Proof.
  unfold stored, upserted. rewrite lookup_insert_eq. simpl.
  apply lookup_insert_eq.
Qed.

Lemma stored_upserted_ne c id key key' v :
  key <> key' -> stored (upserted c id key v) id key' = stored c id key'.
Proof.
  intros Hne. unfold stored, upserted. rewrite lookup_insert_eq. simpl.
  rewrite lookup_insert_ne by done.
  destruct (c !! id); simpl; [done | apply lookup_empty].
Qed.

Lemma upserted_other c id id' key v :
  id <> id' -> upserted c id key v !! id' = c !! id'.
Proof. intros Hne. unfold upserted. by rewrite lookup_insert_ne. Qed.

Lemma upserted_twice c id key v w :
  upserted (upserted c id key v) id key w = upserted c id key w.
Proof.
  unfold upserted. rewrite lookup_insert_eq. simpl.
  by rewrite insert_insert_eq, insert_insert_eq.
Qed.

Lemma upserted_is_Some c id key v : is_Some (upserted c id key v !! id).
Proof. unfold upserted. rewrite lookup_insert_eq. eauto. Qed.

(** Each setter on a reachable collection: no error, one field upserted. *)
Ltac run_setter :=
  intros; cbn [UpdateOne memdb]; rewrite mem_upsert;
  cbn [MatchedCount UpsertedCount];
  match goal with |- context [ ?c !! ?id ] => destruct (c !! id) end;
  reflexivity.

Lemma SetVideo_mem ctx sm id vid :
  SetVideo ctx sm id vid
  = (None, with_collection sm
             (upserted (collection sm) id "video" (enc_ptr BVideo vid))).
Proof. unfold SetVideo. run_setter. Qed.

Lemma SetSfm_mem ctx sm id sfm :
  SetSfm ctx sm id sfm
  = (None, with_collection sm
             (upserted (collection sm) id "sfm" (enc_ptr BSfm sfm))).
Proof. unfold SetSfm. run_setter. Qed.

Lemma SetNerf_mem ctx sm id nerf :
  SetNerf ctx sm id nerf
  = (None, with_collection sm
             (upserted (collection sm) id "nerf" (enc_ptr BNerf nerf))).
Proof. unfold SetNerf. run_setter. Qed.

Lemma SetTrainingConfig_mem ctx sm id config :
  SetTrainingConfig ctx sm id config
  = (None, with_collection sm
             (upserted (collection sm) id "config" (enc_ptr BConfig config))).
Proof. unfold SetTrainingConfig. run_setter. Qed.

Lemma SetSceneName_mem ctx sm id name :
  SetSceneName ctx sm id name
  = (None, with_collection sm
             (upserted (collection sm) id "name" (BString name))).
Proof. unfold SetSceneName. run_setter. Qed.


(** The getters on a reachable collection, by cases on the stored field. *)
Ltac run_getter :=
  cbn [FindOne memdb]; unfold mem_FindOne, Decode_ptr, Decode_name;
  repeat match goal with
         | Hc : ?c !! ?id = _ |- context [ ?c !! ?id ] => rewrite Hc
         | Hd : ?d !! ?k = _ |- context [ ?d !! ?k ] => rewrite Hd
         end;
  try reflexivity.

(** C2: a getter on an identifier with no document fails with
    [ErrSceneNotFound]; on a document whose sub-resource field was never set
    it fails with the not-found error of that sub-resource; the errors are
    pairwise different values, so callers can tell the two outcomes apart.
    This holds for [GetNerf], [GetVideo], [GetSfm] and [GetTrainingConfig]. *)
Theorem getters_not_found_precision ctx sm id :
  (collection sm !! id = None ->
     GetNerf ctx sm id = (None, Some ErrSceneNotFound) /\
     GetVideo ctx sm id = (None, Some ErrSceneNotFound) /\
     GetSfm ctx sm id = (None, Some ErrSceneNotFound) /\
     GetTrainingConfig ctx sm id = (None, Some ErrSceneNotFound)) /\
  (forall d, collection sm !! id = Some d ->
     (d !! "nerf" = None -> GetNerf ctx sm id = (None, Some ErrNerfNotFound)) /\
     (d !! "video" = None -> GetVideo ctx sm id = (None, Some ErrVideoNotFound)) /\
     (d !! "sfm" = None -> GetSfm ctx sm id = (None, Some ErrSfmNotFound)) /\
     (d !! "config" = None ->
        GetTrainingConfig ctx sm id = (None, Some ErrTrainingConfigNotFound))) /\
  ErrSceneNotFound <> ErrNerfNotFound /\
  ErrSceneNotFound <> ErrVideoNotFound /\
  ErrSceneNotFound <> ErrSfmNotFound /\
  ErrSceneNotFound <> ErrTrainingConfigNotFound.
Proof.
  split; [| split].
  - intros Hc. unfold GetNerf, GetVideo, GetSfm, GetTrainingConfig.
    repeat split; run_getter.
  - intros d Hc. unfold GetNerf, GetVideo, GetSfm, GetTrainingConfig.
    repeat split; intros Hd; run_getter.
  - repeat split; discriminate.
Qed.


Ltac run_contract :=
  unfold setter_contract, reports_neither, reports_match_or_creation;
  match goal with
  | |- context [ UpdateOne ?ctx ?c ?f ?u ?o ] =>
      destruct (UpdateOne ctx c f u o) as [[?res|?e] ?c']
  end; simpl;
  [ match goal with
    | |- context [ MatchedCount ?r =? 0 ] =>
        destruct (Z.eqb_spec (MatchedCount r) 0);
        destruct (Z.eqb_spec (UpsertedCount r) 0)
    end; simpl;
    (split;
     (split;
      [ intros Hr; first [ discriminate Hr | eexists; split; [reflexivity | lia] ]
      | intros (res' & Hres & Hcnt); injection Hres as <-;
        first [ reflexivity | lia ] ]))
  | split;
    (split;
     [ intros Hr; discriminate Hr
     | intros (res' & Hres & _); discriminate Hres ]) ].

(** C3: whatever the driver answers, each setter returns [ErrSceneNotFound]
    exactly when the upsert reports neither a matched nor an upserted
    document, and returns no error exactly when it reports one of the two;
    on a reachable collection the upsert always reports one of the two, the
    match when the document exists and the creation when it does not, so
    every setter succeeds and the document exists afterwards. *)
Theorem setters_error_contract :
  (forall (C : Type) (D : Collection C) ctx (sm : SceneManager C) id
          vid sfm nerf config name,
     setter_contract ctx sm id {[ "video" := enc_ptr BVideo vid ]}
       (SetVideo ctx sm id vid) /\
     setter_contract ctx sm id {[ "sfm" := enc_ptr BSfm sfm ]}
       (SetSfm ctx sm id sfm) /\
     setter_contract ctx sm id {[ "nerf" := enc_ptr BNerf nerf ]}
       (SetNerf ctx sm id nerf) /\
     setter_contract ctx sm id {[ "config" := enc_ptr BConfig config ]}
       (SetTrainingConfig ctx sm id config) /\
     setter_contract ctx sm id {[ "name" := BString name ]}
       (SetSceneName ctx sm id name)) /\
  (forall ctx (sm : SceneManager Docs) id vid sfm nerf config name,
     let exists_after (run : error * SceneManager Docs) :=
       run.1 = None /\ is_Some (collection run.2 !! id) in
     exists_after (SetVideo ctx sm id vid) /\
     exists_after (SetSfm ctx sm id sfm) /\
     exists_after (SetNerf ctx sm id nerf) /\
     exists_after (SetTrainingConfig ctx sm id config) /\
     exists_after (SetSceneName ctx sm id name)).
Proof.
  split.
  - intros C D ctx sm id vid sfm nerf config name.
    unfold SetVideo, SetSfm, SetNerf, SetTrainingConfig, SetSceneName.
    split; [| split; [| split; [| split]]]; run_contract.
  - intros ctx sm id vid sfm nerf config name exists_after.
    unfold exists_after.
    rewrite SetVideo_mem, SetSfm_mem, SetNerf_mem, SetTrainingConfig_mem,
      SetSceneName_mem.
    simpl. repeat split; apply upserted_is_Some.
Qed.


Lemma DeleteScene_mem ctx sm id :
  DeleteScene ctx sm id
  = (match collection sm !! id with
     | Some _ => None
     | None => Some ErrSceneNotFound
     end,
     with_collection sm (delete id (collection sm))).
Proof.
  unfold DeleteScene. cbn [DeleteOne memdb]. unfold mem_DeleteOne.
  destruct (collection sm !! id) eqn:Hc; simpl; [done |].
  by rewrite delete_id.
Qed.

(** C4: when [DeleteScene] succeeds, the collection is the old one without
    the whole document of that identifier; every getter on the identifier
    then fails with [ErrSceneNotFound], and so does a second [DeleteScene],
    which changes nothing. *)
Theorem delete_scene_removes_document ctx ctx' sm sm' id :
  DeleteScene ctx sm id = (None, sm') ->
  collection sm' = delete id (collection sm) /\
  collection sm' !! id = None /\
  GetVideo ctx' sm' id = (None, Some ErrSceneNotFound) /\
  GetSfm ctx' sm' id = (None, Some ErrSceneNotFound) /\
  GetNerf ctx' sm' id = (None, Some ErrSceneNotFound) /\
  GetTrainingConfig ctx' sm' id = (None, Some ErrSceneNotFound) /\
  GetSceneName ctx' sm' id = (EmptyString, Some ErrSceneNotFound) /\
  DeleteScene ctx' sm' id = (Some ErrSceneNotFound, sm').
Proof.
  rewrite DeleteScene_mem. intros [= Herr <-].
  assert (Hgone : collection (with_collection sm (delete id (collection sm))) !! id
                  = None) by apply lookup_delete_eq.
  split; [reflexivity |]. split; [exact Hgone |].
  unfold GetVideo, GetSfm, GetNerf, GetTrainingConfig, GetSceneName.
  repeat (split; [run_getter |]).
  rewrite DeleteScene_mem, Hgone. f_equal.
  unfold with_collection. simpl. by rewrite delete_id by apply lookup_delete_eq.
Qed.

(** C10: [DeleteScene] on one identifier removes at most the document of
    that identifier: the collection afterwards is the old one without that
    key, the document of any other identifier is the same as before, and
    so is the result of every getter on it. *)
Theorem delete_scene_frame ctx ctx' sm id1 id2 :
  id1 <> id2 ->
  let sm' := (DeleteScene ctx sm id1).2 in
  collection sm' = delete id1 (collection sm) /\
  collection sm' !! id2 = collection sm !! id2 /\
  GetVideo ctx' sm' id2 = GetVideo ctx' sm id2 /\
  GetSfm ctx' sm' id2 = GetSfm ctx' sm id2 /\
  GetNerf ctx' sm' id2 = GetNerf ctx' sm id2 /\
  GetTrainingConfig ctx' sm' id2 = GetTrainingConfig ctx' sm id2 /\
  GetSceneName ctx' sm' id2 = GetSceneName ctx' sm id2.
Proof.
  intros Hne sm'. subst sm'. rewrite DeleteScene_mem. cbn [snd].
  assert (Hsame : collection (with_collection sm (delete id1 (collection sm))) !! id2
                  = collection sm !! id2) by by apply lookup_delete_ne.
  split; [reflexivity |]. split; [exact Hsame |].
  unfold GetVideo, GetSfm, GetNerf, GetTrainingConfig, GetSceneName.
  cbn [FindOne memdb]. unfold mem_FindOne. by rewrite Hsame.
Qed.


Lemma upserted_touches_only c id key v :
  touches_only key id c (upserted c id key v).
Proof.
  split.
  - intros key' Hne. by apply stored_upserted_ne.
  - intros id' Hne. by apply upserted_other.
Qed.

Lemma GetVideo_absent ctx sm id :
  is_Some (collection sm !! id) ->
  stored (collection sm) id "video" = None ->
  GetVideo ctx sm id = (None, Some ErrVideoNotFound).
Proof.
  intros [d Hc]. unfold stored. rewrite Hc. simpl. intros Hd.
  unfold GetVideo. run_getter.
Qed.

(** C6: on an identifier whose document has no [video] field (or that has no
    document yet), [SetSfm] succeeds, stores the sfm value, leaves the
    [video] field absent, and [GetVideo] afterwards fails with
    [ErrVideoNotFound]; each of the five setters changes no other field of
    the document and no other document. *)
Theorem set_sfm_leaves_video_absent ctx ctx' sm id :
  (forall sfm,
     stored (collection sm) id "video" = None ->
     let run := SetSfm ctx sm id sfm in
     run.1 = None /\
     stored (collection run.2) id "sfm" = Some (enc_ptr BSfm sfm) /\
     stored (collection run.2) id "video" = None /\
     GetVideo ctx' run.2 id = (None, Some ErrVideoNotFound)) /\
  (forall vid sfm nerf config name,
     touches_only "video" id (collection sm)
       (collection (SetVideo ctx sm id vid).2) /\
     touches_only "sfm" id (collection sm)
       (collection (SetSfm ctx sm id sfm).2) /\
     touches_only "nerf" id (collection sm)
       (collection (SetNerf ctx sm id nerf).2) /\
     touches_only "config" id (collection sm)
       (collection (SetTrainingConfig ctx sm id config).2) /\
     touches_only "name" id (collection sm)
       (collection (SetSceneName ctx sm id name).2)).
Proof.
  split.
  - intros sfm Hvideo run. subst run. rewrite SetSfm_mem. cbn [fst snd].
    assert (Hkeep : stored (collection (with_collection sm
                      (upserted (collection sm) id "sfm" (enc_ptr BSfm sfm))))
                      id "video" = None).
    { simpl. by rewrite stored_upserted_ne. }
    split; [reflexivity |]. split; [apply stored_upserted_eq |].
    split; [exact Hkeep |].
    apply GetVideo_absent; [apply upserted_is_Some | exact Hkeep].
  - intros vid sfm nerf config name.
    rewrite SetVideo_mem, SetSfm_mem, SetNerf_mem, SetTrainingConfig_mem,
      SetSceneName_mem.
    repeat split; simpl; solve [ intros; by apply stored_upserted_ne
                               | intros; by apply upserted_other ].
Qed.

(** C7: [SetVideo] called twice with the same value returns no error the
    second time and changes nothing the second time; the stored [video]
    field is that value and [GetVideo] returns it; a [SetVideo] after a
    [SetVideo] of another value leaves what a single [SetVideo] of the new
    value leaves: the field is replaced, nothing is appended. *)
Theorem set_video_twice ctx ctx' ctx'' sm id vid :
  let first := SetVideo ctx sm id vid in
  let second := SetVideo ctx' first.2 id vid in
  second.1 = None /\
  second.2 = first.2 /\
  stored (collection second.2) id "video" = Some (enc_ptr BVideo vid) /\
  (forall v, vid = Some v -> GetVideo ctx'' second.2 id = (Some v, None)) /\
  (forall old, (SetVideo ctx' (SetVideo ctx sm id old).2 id vid).2 = first.2).
Proof.
  intros first second. subst first second.
  rewrite !SetVideo_mem. cbn [fst snd]. unfold with_collection. cbn [collection logger].
  rewrite upserted_twice.
  split; [reflexivity |]. split; [reflexivity |].
  split; [apply stored_upserted_eq |]. split.
  - intros v ->. unfold GetVideo. cbn [FindOne memdb collection]. unfold mem_FindOne.
    unfold upserted. rewrite lookup_insert_eq. unfold Decode_ptr.
    rewrite lookup_insert_eq. reflexivity.
  - intros old. rewrite !SetVideo_mem. cbn [fst snd]. unfold with_collection.
    cbn [collection logger]. by rewrite upserted_twice.
Qed.

(** C8: [GetSceneName] on a document whose [name] field was never set
    returns the empty string and no error, where each other getter returns
    the not-found error of its sub-resource; on an identifier with no
    document it fails with [ErrSceneNotFound] as every other getter does. *)
Theorem get_scene_name_asymmetry ctx sm id :
  (forall d, collection sm !! id = Some d -> d !! "name" = None ->
     GetSceneName ctx sm id = (EmptyString, None)) /\
  (collection sm !! id = None ->
     GetSceneName ctx sm id = (EmptyString, Some ErrSceneNotFound) /\
     (GetVideo ctx sm id).2 = Some ErrSceneNotFound /\
     (GetSfm ctx sm id).2 = Some ErrSceneNotFound /\
     (GetNerf ctx sm id).2 = Some ErrSceneNotFound /\
     (GetTrainingConfig ctx sm id).2 = Some ErrSceneNotFound) /\
  (forall d, collection sm !! id = Some d ->
     (d !! "video" = None -> (GetVideo ctx sm id).2 = Some ErrVideoNotFound) /\
     (d !! "sfm" = None -> (GetSfm ctx sm id).2 = Some ErrSfmNotFound) /\
     (d !! "nerf" = None -> (GetNerf ctx sm id).2 = Some ErrNerfNotFound) /\
     (d !! "config" = None ->
        (GetTrainingConfig ctx sm id).2 = Some ErrTrainingConfigNotFound)).
Proof.
  unfold GetSceneName, GetVideo, GetSfm, GetNerf, GetTrainingConfig.
  split; [| split].
  - intros d Hc Hd. run_getter.
  - intros Hc. repeat split; run_getter.
  - intros d Hc. repeat split; intros Hd; run_getter.
Qed.

End Props.

(** *** The theorems at concrete scenes *)

Import example.

Lemma getters_not_found_precision_witness :
  GetNerf context_TODO one_scene 8%N = (None, Some ErrSceneNotFound) /\
  GetNerf context_TODO one_scene 7%N = (None, Some ErrNerfNotFound).
Proof.
  pose proof (getters_not_found_precision context_TODO one_scene 8%N) as [H8 _].
  pose proof (getters_not_found_precision context_TODO one_scene 7%N) as (_ & H7 & _).
  split.
  - apply H8. reflexivity.
  - eapply H7; reflexivity.
Defined.

Lemma setters_error_contract_witness :
  (SetVideo (Collection0 := silent) context_TODO silent_manager 7%N None).1
  = Some ErrSceneNotFound /\
  (SetVideo context_TODO one_scene 7%N None).1 = None /\
  (SetVideo context_TODO one_scene 8%N None).1 = None.
Proof.
  destruct (@setters_error_contract text_payloads) as [Hany Hmem].
  destruct (Hany unit silent context_TODO silent_manager
              7%N None None None None EmptyString) as ([[_ Hneither] _] & _).
  destruct (Hmem context_TODO one_scene 7%N None None None None EmptyString)
    as ([H7 _] & _).
  destruct (Hmem context_TODO one_scene 8%N None None None None EmptyString)
    as ([H8 _] & _).
  split; [| split; [exact H7 | exact H8]].
  apply Hneither. eexists. split; [reflexivity |]. split; reflexivity.
Defined.

Lemma delete_scene_removes_document_witness :
  let sm' := (DeleteScene context_TODO one_scene 7%N).2 in
  DeleteScene context_TODO one_scene 7%N = (None, sm') /\
  GetVideo context_Background sm' 7%N = (None, Some ErrSceneNotFound) /\
  DeleteScene context_Background sm' 7%N = (Some ErrSceneNotFound, sm').
Proof.
  intros sm'.
  assert (Hdel : DeleteScene context_TODO one_scene 7%N = (None, sm'))
    by reflexivity.
  split; [exact Hdel |].
  destruct (delete_scene_removes_document context_TODO context_Background
              one_scene sm' 7%N Hdel) as (_ & _ & Hv & _ & _ & _ & _ & Hd).
  split; [exact Hv | exact Hd].
Defined.

Lemma delete_scene_frame_witness :
  7%N <> 8%N /\
  GetVideo context_TODO (DeleteScene context_TODO one_scene 8%N).2 7%N
  = GetVideo context_TODO one_scene 7%N.
Proof.
  assert (Hne : 8%N <> 7%N) by discriminate.
  split; [discriminate |].
  exact (proj1 (proj2 (proj2
           (delete_scene_frame context_TODO context_TODO one_scene 8%N 7%N Hne)))).
Defined.

Lemma set_sfm_leaves_video_absent_witness :
  stored (collection named_scene) 9%N "video" = None /\
  (SetSfm context_TODO named_scene 9%N (Some "sfm/9.json" : option (@Sfm text_payloads))).1 = None /\
  GetVideo context_TODO
    (SetSfm context_TODO named_scene 9%N (Some "sfm/9.json" : option (@Sfm text_payloads))).2 9%N
  = (None, Some ErrVideoNotFound).
Proof.
  assert (Habsent : stored (collection named_scene) 9%N "video" = None)
    by reflexivity.
  split; [exact Habsent |].
  destruct (proj1 (set_sfm_leaves_video_absent context_TODO context_TODO
                     named_scene 9%N)
              (Some "sfm/9.json" : option (@Sfm text_payloads)) Habsent)
    as (Herr & _ & _ & Hget).
  split; [exact Herr | exact Hget].
Defined.

Lemma set_video_twice_witness :
  let vid : option (@Video text_payloads) := Some "raw/9.mp4" in
  let first := SetVideo context_TODO named_scene 9%N vid in
  let second := SetVideo context_TODO first.2 9%N vid in
  second.1 = None /\
  GetVideo context_TODO second.2 9%N = (Some "raw/9.mp4", None).
Proof.
  intros vid first second.
  destruct (set_video_twice context_TODO context_TODO context_TODO
              named_scene 9%N vid) as (Herr & _ & _ & Hget & _).
  split; [exact Herr | exact (Hget _ eq_refl)].
Defined.

Lemma get_scene_name_asymmetry_witness :
  GetSceneName context_TODO one_scene 7%N = (EmptyString, None) /\
  GetSceneName context_TODO one_scene 8%N = (EmptyString, Some ErrSceneNotFound).
Proof.
  destruct (get_scene_name_asymmetry context_TODO one_scene 7%N) as (H7 & _).
  destruct (get_scene_name_asymmetry context_TODO one_scene 8%N) as (_ & H8 & _).
  split.
  - eapply H7; reflexivity.
  - apply H8. reflexivity.
Defined.

End SceneProperties.

(** * Properties of the token codec: base64url segments *)
Module CodecProperties.
Import base64.

(** *** Three bytes as four six-bit values, and back *)

Lemma lor_disjoint hi lo k :
  0 <= k -> 0 <= lo < 2 ^ k -> Z.lor (hi * 2 ^ k) lo = hi * 2 ^ k + lo.
Proof.
  intros Hk Hlo.
  assert (Hland : Z.land (hi * 2 ^ k) lo = 0).
  { apply Z.bits_inj'. intros n Hn.
    rewrite Z.land_spec, Z.bits_0, <- Z.shiftl_mul_pow2, Z.shiftl_spec by lia.
    destruct (Z.lt_ge_cases n k) as [Hlt|Hge].
    - rewrite (Z.testbit_neg_r hi) by lia. reflexivity.
    - rewrite <- (Z.mod_small lo (2 ^ k)) by lia.
      rewrite Z.mod_pow2_bits_high by lia. apply andb_false_r. }
  rewrite Z.add_nocarry_lxor by exact Hland.
  symmetry. apply Z.lxor_lor. exact Hland.
Qed.

Lemma uint_range c : 0 <= uint c < 256.
Proof.
  unfold uint. pose proof (N_ascii_bounded c). lia.
Qed.

Lemma byte_uint c : byte (uint c) = c.
Proof.
  unfold byte, uint. pose proof (N_ascii_bounded c).
  change 255 with (Z.ones 8). rewrite Z.land_ones by lia.
  rewrite Z.mod_small by lia. rewrite N2Z.id. apply ascii_N_embedding.
Qed.

Lemma byte_mod v : byte v = byte (v mod 256).
Proof.
  unfold byte. change 255 with (Z.ones 8). rewrite !Z.land_ones by lia.
  change (2^8) with 256. by rewrite Z.mod_mod by lia.
Qed.

Lemma val3 a b c :
  0 <= a < 256 -> 0 <= b < 256 -> 0 <= c < 256 ->
  Z.lor (Z.lor (Z.shiftl a 16) (Z.shiftl b 8)) c = a * 65536 + b * 256 + c.
Proof.
  intros Ha Hb Hc. rewrite !Z.shiftl_mul_pow2 by lia.
  rewrite (lor_disjoint a (b * 2 ^ 8) 16) by lia.
  replace (a * 2 ^ 16 + b * 2 ^ 8) with ((a * 256 + b) * 2 ^ 8) by lia.
  rewrite lor_disjoint by lia. lia.
Qed.

Lemma sextet v k : 0 <= k -> Z.land (Z.shiftr v k) 63 = (v / 2 ^ k) mod 64.
Proof.
  intros Hk. change 63 with (Z.ones 6). rewrite Z.land_ones by lia.
  by rewrite Z.shiftr_div_pow2.
Qed.

Lemma sextet_low v : Z.land v 63 = v mod 64.
Proof. change 63 with (Z.ones 6). by rewrite Z.land_ones. Qed.

Lemma val4 s0 s1 s2 s3 :
  0 <= s0 < 64 -> 0 <= s1 < 64 -> 0 <= s2 < 64 -> 0 <= s3 < 64 ->
  Z.lor (Z.lor (Z.lor (Z.shiftl s0 18) (Z.shiftl s1 12)) (Z.shiftl s2 6)) s3
  = s0 * 262144 + s1 * 4096 + s2 * 64 + s3.
Proof.
  intros H0 H1 H2 H3. rewrite !Z.shiftl_mul_pow2 by lia.
  rewrite (lor_disjoint s0 (s1 * 2 ^ 12) 18) by lia.
  replace (s0 * 2 ^ 18 + s1 * 2 ^ 12) with ((s0 * 64 + s1) * 2 ^ 12) by lia.
  rewrite (lor_disjoint _ (s2 * 2 ^ 6) 12) by lia.
  replace ((s0 * 64 + s1) * 2 ^ 12 + s2 * 2 ^ 6)
    with (((s0 * 64 + s1) * 64 + s2) * 2 ^ 6) by lia.
  rewrite lor_disjoint by lia. lia.
Qed.

(** The alphabet read back. *)
Lemma decodeMap_encode v : 0 <= v < 64 -> decodeMap (encode v) = v.
Proof.
  intros Hv.
  assert (Hall : forallb (fun i => decodeMap (encode (Z.of_nat i)) =? Z.of_nat i)
                   (seq 0 64) = true) by (vm_compute; reflexivity).
  rewrite forallb_forall in Hall.
  specialize (Hall (Z.to_nat v)). rewrite Z2Nat.id in Hall by lia.
  apply Z.eqb_eq, Hall, in_seq. lia.
Qed.

Lemma decode_from_encode enc v rest dbuf :
  0 <= v < 64 ->
  decode_from enc (String (encode v) rest) dbuf
  = if (length dbuf =? 3)%nat
    then app (quantum_bytes (dbuf ++ [v])) <$> decode_from enc rest []
    else decode_from enc rest (dbuf ++ [v]).
Proof.
  intros Hv. cbn [decode_from]. rewrite decodeMap_encode by done.
  destruct (Z.eqb_spec v 255); [lia | reflexivity].
Qed.

Lemma quantum3 a b c :
  let val := Z.lor (Z.lor (Z.shiftl (uint a) 16) (Z.shiftl (uint b) 8))
               (uint c) in
  quantum_bytes [Z.land (Z.shiftr val 18) 63; Z.land (Z.shiftr val 12) 63;
                 Z.land (Z.shiftr val 6) 63; Z.land val 63]
  = [a; b; c].
Proof.
  intros val. subst val.
  pose proof (uint_range a) as Ha. pose proof (uint_range b) as Hb.
  pose proof (uint_range c) as Hc.
  rewrite val3 by done. rewrite !sextet, sextet_low by lia.
  unfold quantum_bytes. cbn [length nth Nat.sub take].
  rewrite val4 by (apply Z.mod_pos_bound; lia).
  rewrite !Z.shiftr_div_pow2 by lia.
  set (v := uint a * 65536 + uint b * 256 + uint c).
  assert (Hv : (v / 2 ^ 18) mod 64 * 262144 + (v / 2 ^ 12) mod 64 * 4096
               + (v / 2 ^ 6) mod 64 * 64 + v mod 64 = v).
  { subst v. change (2 ^ 18) with 262144. change (2 ^ 12) with 4096.
    change (2 ^ 6) with 64. Z.div_mod_to_equations. lia. }
  rewrite Hv.
  rewrite (byte_mod (_ / 2 ^ 16)), (byte_mod (_ / 2 ^ 8)),
    (byte_mod (_ / 2 ^ 0)).
  replace ((v / 2 ^ 16) mod 256) with (uint a)
    by (subst v; change (2 ^ 16) with 65536; Z.div_mod_to_equations; lia).
  replace ((v / 2 ^ 8) mod 256) with (uint b)
    by (subst v; change (2 ^ 8) with 256; Z.div_mod_to_equations; lia).
  replace ((v / 2 ^ 0) mod 256) with (uint c)
    by (subst v; change (2 ^ 0) with 1; Z.div_mod_to_equations; lia).
  by rewrite !byte_uint.
Qed.

Lemma quantum2 a b :
  let val := Z.lor (Z.shiftl (uint a) 16) (Z.shiftl (uint b) 8) in
  quantum_bytes [Z.land (Z.shiftr val 18) 63; Z.land (Z.shiftr val 12) 63;
                 Z.land (Z.shiftr val 6) 63]
  = [a; b].
Proof.
  intros val. subst val.
  pose proof (uint_range a) as Ha. pose proof (uint_range b) as Hb.
  rewrite <- (Z.lor_0_r (Z.lor _ _)). rewrite val3 by lia.
  rewrite !sextet by lia.
  unfold quantum_bytes. cbn [length nth Nat.sub take].
  rewrite val4 by (try apply Z.mod_pos_bound; lia).
  rewrite !Z.shiftr_div_pow2 by lia.
  set (v := uint a * 65536 + uint b * 256 + 0).
  assert (Hv : (v / 2 ^ 18) mod 64 * 262144 + (v / 2 ^ 12) mod 64 * 4096
               + (v / 2 ^ 6) mod 64 * 64 + 0 = v).
  { subst v. change (2 ^ 18) with 262144. change (2 ^ 12) with 4096.
    change (2 ^ 6) with 64. Z.div_mod_to_equations. lia. }
  rewrite Hv.
  rewrite (byte_mod (_ / 2 ^ 16)), (byte_mod (_ / 2 ^ 8)).
  replace ((v / 2 ^ 16) mod 256) with (uint a)
    by (subst v; change (2 ^ 16) with 65536; Z.div_mod_to_equations; lia).
  replace ((v / 2 ^ 8) mod 256) with (uint b)
    by (subst v; change (2 ^ 8) with 256; Z.div_mod_to_equations; lia).
  by rewrite !byte_uint.
Qed.

Lemma quantum1 a :
  let val := Z.shiftl (uint a) 16 in
  quantum_bytes [Z.land (Z.shiftr val 18) 63; Z.land (Z.shiftr val 12) 63]
  = [a].
Proof.
  intros val. subst val.
  pose proof (uint_range a) as Ha.
  rewrite Z.shiftl_mul_pow2 by lia. rewrite !sextet by lia.
  unfold quantum_bytes. cbn [length nth Nat.sub take].
  rewrite val4 by (try apply Z.mod_pos_bound; lia).
  rewrite !Z.shiftr_div_pow2 by lia.
  rewrite (byte_mod (_ / 2 ^ 16)).
  replace (_ mod 256) with (uint a)
    by (change (2 ^ 16) with 65536; change (2 ^ 18) with 262144;
        change (2 ^ 12) with 4096; Z.div_mod_to_equations; lia).
  by rewrite byte_uint.
Qed.

Lemma sextet_range v k : 0 <= k -> 0 <= Z.land (Z.shiftr v k) 63 < 64.
Proof. intros Hk. rewrite sextet by done. apply Z.mod_pos_bound. lia. Qed.

Lemma sextet_low_range v : 0 <= Z.land v 63 < 64.
Proof. rewrite sextet_low. apply Z.mod_pos_bound. lia. Qed.

(** Induction on a byte slice, three bytes at a time. *)
Lemma list_ind3 {A} (P : list A -> Prop) :
  P [] -> (forall a, P [a]) -> (forall a b, P [a; b]) ->
  (forall a b c l, P l -> P (a :: b :: c :: l)) ->
  forall l, P l.
Proof.
  intros H0 H1 H2 H3 l.
  assert (Hall : P l /\ (forall a, P (a :: l))
                 /\ (forall a b, P (a :: b :: l))).
  { induction l as [|x l (IH0 & IH1 & IH2)]; [by auto |].
    split; [apply IH1 |]. split; [intros a; apply IH2 |].
    intros a b. by apply H3. }
  apply Hall.
Qed.

Ltac step_quanta :=
  cbn [EncodeToString];
  rewrite !decode_from_encode
    by (first [apply sextet_range; lia | apply sextet_low_range]);
  cbn [length Nat.eqb app].

(** Decoding without padding reads back what was encoded. *)
Lemma DecodeString_EncodeToString_raw (src : list ascii) :
  DecodeString RawURLEncoding (EncodeToString RawURLEncoding src) = Some src.
Proof.
  unfold DecodeString.
  induction src as [|a|a b|a b c rest IH] using list_ind3.
  - reflexivity.
  - step_quanta. cbn [padding padChar RawURLEncoding decode_from length].
    by rewrite quantum1.
  - step_quanta. cbn [padding padChar RawURLEncoding decode_from length].
    by rewrite quantum2.
  - step_quanta. rewrite IH. cbn [fmap option_fmap option_map].
    by rewrite quantum3.
Qed.

(** So does decoding with padding. *)
Lemma DecodeString_EncodeToString_padded (src : list ascii) :
  DecodeString URLEncoding (EncodeToString URLEncoding src) = Some src.
Proof.
  unfold DecodeString.
  induction src as [|a|a b|a b c rest IH] using list_ind3.
  - reflexivity.
  - step_quanta. cbn -[quantum_bytes Z.shiftl Z.shiftr Z.land].
    by rewrite quantum1.
  - step_quanta. cbn -[quantum_bytes Z.shiftl Z.shiftr Z.land Z.lor].
    by rewrite quantum2.
  - step_quanta. rewrite IH. cbn [fmap option_fmap option_map].
    by rewrite quantum3.
Qed.

Lemma DecodeSegment_EncodeSegment (seg : list ascii) :
  jwt.DecodeSegment (jwt.EncodeSegment seg) = Some seg.
Proof. apply DecodeString_EncodeToString_raw. Qed.

(** *** Strings free of a byte, and splitting them *)

Lemma free_of_app c s t :
  strings.free_of c (s ++ t) = strings.free_of c s && strings.free_of c t.
Proof.
  induction s as [|x s IH]; [done |].
  simpl. by rewrite IH, andb_assoc.
Qed.

Lemma Split_free s sep :
  strings.free_of sep s = true -> strings.Split s sep = [s].
Proof.
  induction s as [|x s IH]; [done |].
  cbn [strings.free_of strings.Split]. intros [Hx Hs]%andb_prop.
  apply negb_true_iff in Hx. rewrite Hx, IH by done. reflexivity.
Qed.

Lemma Split_app s t sep :
  strings.free_of sep s = true ->
  strings.Split (s ++ String sep t) sep = s :: strings.Split t sep.
Proof.
  induction s as [|x s IH].
  - intros _. simpl. by rewrite Ascii.eqb_refl.
  - simpl. intros [Hx Hs]%andb_prop.
    apply negb_true_iff in Hx. rewrite Hx, IH by done. reflexivity.
Qed.

Lemma encode_foreign c i :
  foreign c = true -> negb (Ascii.eqb (encode i) c) = true.
Proof.
  unfold foreign, encode. intros [Hp Hall]%andb_prop.
  rewrite forallb_forall in Hall.
  destruct (nth_in_or_default (Z.to_nat i) (list_ascii_of_string encodeURL)
              "="%char) as [Hin | ->]; [by apply Hall | exact Hp].
Qed.

Lemma free_of_EncodeSegment c (seg : list ascii) :
  foreign c = true -> strings.free_of c (jwt.EncodeSegment seg) = true.
Proof.
  intros Hc. unfold jwt.EncodeSegment.
  induction seg as [|a|a b|a b x rest IH] using list_ind3;
    cbn [EncodeToString strings.free_of padding padChar RawURLEncoding];
    rewrite ?encode_foreign, ?IH by done; done.
Qed.

End CodecProperties.

(** * Properties of the access gateway *)
Module GatewayProperties.
Import primitive fiber http web CodecProperties.

Section Gateway.
Context `{GoFloat} `{!jwt.Libraries} `{!Services}.

(** Running a handler: the binds of [M] unfolded. *)
Ltac run_M :=
  repeat (progress
            (unfold mbind, M_bind, mret, M_ret, getCtx, Now, putCtx, Info,
               respond_JSON, respond_Send, Locals_string, call, panic;
             cbv beta iota; cbn [ctx logged now backend])).

Lemma ParseUnverified_nil tokenString parts err :
  jwt.ParseUnverified tokenString = (None, parts, err) -> err <> None.
Proof.
  unfold jwt.ParseUnverified.
  repeat (case_match; try discriminate); intros [= <- <-]; discriminate.
Qed.

Lemma Parse_nil t tokenString keyFunc err :
  jwt.Parse t tokenString keyFunc = (None, err) -> err <> None.
Proof.
  unfold jwt.Parse.
  destruct (jwt.ParseUnverified tokenString) as [[[token|] parts] [e|]] eqn:Hp.
  - intros [=].
  - destruct (keyFunc token); [| intros [=]].
    case_match; intros [=].
  - intros [= <-]. discriminate.
  - intros [= <-]. discriminate.
Qed.

Lemma parts_two (parts : list string) :
  length parts = 2%nat -> parts = [nth 0 parts EmptyString; nth 1 parts EmptyString].
Proof. destruct parts as [|a [|b [|c l]]]; simpl; intros; (done || lia). Qed.

Lemma parts_two_bearer (parts : list string) :
  length parts = 2%nat -> nth 0 parts EmptyString = "Bearer" ->
  parts = ["Bearer"; nth 1 parts EmptyString].
Proof. intros Hl Hb. rewrite (parts_two parts Hl) at 1. by rewrite Hb. Qed.

(** The gateway once the header has the form [Bearer <token>]: what it does
    is decided by the parse of the token. *)
Lemma tokenRequired_bearer (s : WebServer) (st : State) (handler : Handler) :
  let authHeader := Get (ctx st) "Authorization" in
  let parts := strings.Split authHeader " "%char in
  authHeader <> EmptyString -> length parts = 2%nat ->
  nth 0 parts EmptyString = "Bearer" ->
  tokenRequired s handler st
  = match jwt.Parse (now st) (nth 1 parts EmptyString) (keyFunc s) with
    | (_, Some _) => Returned None (unauthorized "Invalid token" st)
    | (None, None) => Panicked st
    | (Some token, None) =>
        if negb (jwt.Valid token)
        then Returned None (unauthorized "Invalid token" st)
        else match jwt.claims token with
             | jwt.OtherClaims =>
                 Returned None (unauthorized "Invalid token claims" st)
             | jwt.MapClaims claims =>
                 match claims !! "sub" with
                 | Some (Str userID) => handler (bound userID st)
                 | _ => Returned None (unauthorized "Invalid user ID in token" st)
                 end
             end
    end.
Proof.
  intros authHeader parts Hh Hlen Hb. unfold tokenRequired. run_M.
  fold authHeader. fold parts.
  destruct (String.eqb_spec authHeader EmptyString) as [|_]; [done |].
  rewrite Hlen, Hb. cbn [Nat.eqb String.eqb Ascii.eqb Bool.eqb negb orb].
  fold (keyFunc s).
  destruct (jwt.Parse _ _ _) as [[token|] [e|]]; try reflexivity.
  destruct (jwt.Valid token); [| reflexivity]. cbn [negb].
  destruct (jwt.claims token) as [claims|]; [| reflexivity].
  destruct (claims !! "sub") as [[]|]; reflexivity.
Qed.

Lemma tokenRequired_invokes (s : WebServer) (st : State) (userID : string) :
  checks_pass s st userID -> invokes s st userID.
Proof.
  intros (Hh & tokenString & token & claims & Hs & Hp & Hv & Hc & Hsub) handler.
  rewrite tokenRequired_bearer; rewrite ?Hs; try done.
  cbn [nth]. by rewrite Hp, Hv, Hc, Hsub.
Qed.

(** The two halves of a case in which the gateway answers [Unauthorized]:
    no identity passes the checks, and the run of the gateway does not
    depend on the handler. *)
Ltac none_passes Hinv :=
  let u := fresh "u" in
  let Hu := fresh "Hu" in
  intros u Hu;
  apply Hinv in Hu as (? & ? & ? & ? & ? & ? & ? & ? & ?);
  congruence.

Ltac answered Hrun :=
  let handler := fresh "handler" in
  eexists; intros handler; rewrite Hrun; reflexivity.

(** C1: the gateway answers [Unauthorized], whatever the wrapped handler is
    (so the handler is not run), when the [Authorization] header is missing,
    when it is not two space-separated parts of which the first is
    [Bearer], when the parse of the token returns an error or a token that
    is not valid, when the claims are no [MapClaims], and when the [sub]
    claim is missing or no string; with all this in order it runs the
    handler with the [sub] claim bound.  For every request exactly one of
    the two happens: all checks pass and the handler is invoked, or no
    identity passes the checks and the answer is [Unauthorized]. *)
Theorem token_required_checks (s : WebServer) (st : State) :
  let authHeader := Get (ctx st) "Authorization" in
  let parts := strings.Split authHeader " "%char in
  let parsed := jwt.Parse (now st) (nth 1 parts EmptyString) (keyFunc s) in
  (authHeader = EmptyString -> rejects s st "Missing Authorization header") /\
  (authHeader <> EmptyString ->
   length parts <> 2%nat \/ nth 0 parts EmptyString <> "Bearer" ->
   rejects s st
     "Invalid Authorization header format. Expected: `Bearer <token>`") /\
  (authHeader <> EmptyString -> length parts = 2%nat ->
   nth 0 parts EmptyString = "Bearer" ->
   ((exists e, parsed.2 = Some e) \/
    (exists token, parsed = (Some token, None) /\ jwt.Valid token = false) ->
    rejects s st "Invalid token") /\
   (forall token, parsed = (Some token, None) -> jwt.Valid token = true ->
      (jwt.claims token = jwt.OtherClaims ->
       rejects s st "Invalid token claims") /\
      (forall claims, jwt.claims token = jwt.MapClaims claims ->
         (forall userID, claims !! "sub" <> Some (Str userID)) ->
         rejects s st "Invalid user ID in token") /\
      (forall claims userID, jwt.claims token = jwt.MapClaims claims ->
         claims !! "sub" = Some (Str userID) ->
         invokes s st userID))) /\
  (forall msg, status (ctx (unauthorized msg st)) = StatusUnauthorized) /\
  ((exists userID, checks_pass s st userID /\ invokes s st userID) \/
   ((forall userID, ~ checks_pass s st userID) /\
    exists msg, rejects s st msg)).
Proof.
  intros authHeader parts parsed.
  assert (Hmissing : authHeader = EmptyString ->
                     rejects s st "Missing Authorization header").
  { intros Hh handler. unfold tokenRequired. run_M.
    fold authHeader. rewrite Hh. reflexivity. }
  assert (Hformat :
            authHeader <> EmptyString ->
            length parts <> 2%nat \/ nth 0 parts EmptyString <> "Bearer" ->
            rejects s st
              "Invalid Authorization header format. Expected: `Bearer <token>`").
  { intros Hh Hbad handler. unfold tokenRequired. run_M.
    fold authHeader. fold parts.
    destruct (String.eqb_spec authHeader EmptyString) as [|_]; [done |].
    destruct (Nat.eqb_spec (length parts) 2) as [Hlen|Hlen]; [| reflexivity].
    destruct (String.eqb_spec (nth 0 parts EmptyString) "Bearer") as [Hb|Hb];
      [| reflexivity].
    destruct Hbad; done. }
  pose proof (fun handler => tokenRequired_bearer s st handler) as Hstep.
  cbv zeta in Hstep. fold authHeader in Hstep. fold parts in Hstep.
  fold parsed in Hstep.
  split; [exact Hmissing |]. split; [exact Hformat |].
  split.
  { intros Hh Hlen Hb. split.
    - intros Hbad handler. rewrite Hstep by done.
      destruct Hbad as [[e He] | (token & -> & Hv)].
      + destruct parsed as [[token|] err]; simpl in He; subst err; reflexivity.
      + by rewrite Hv.
    - intros token Hp Hv. repeat split.
      + intros Hc handler. rewrite Hstep by done. by rewrite Hp, Hv, Hc.
      + intros claims Hc Hsub handler. rewrite Hstep by done.
        rewrite Hp, Hv, Hc. cbn [negb].
        destruct (claims !! "sub") as [[| | |u| |]|] eqn:Hs; try reflexivity.
        by destruct (Hsub u).
      + intros claims userID Hc Hsub handler. rewrite Hstep by done.
        by rewrite Hp, Hv, Hc, Hsub. }
  split; [reflexivity |].
  assert (Hinv : forall userID, checks_pass s st userID ->
            authHeader <> EmptyString /\ length parts = 2%nat /\
            nth 0 parts EmptyString = "Bearer" /\
            exists token claims,
              parsed = (Some token, None) /\ jwt.Valid token = true /\
              jwt.claims token = jwt.MapClaims claims /\
              claims !! "sub" = Some (Str userID)).
  { intros u (Hh & tokenString & token & claims & Hs & Hp & Hv & Hc & Hsub).
    fold authHeader in Hh, Hs. fold parts in Hs.
    subst parsed. rewrite Hs. cbn [length nth]. eauto 10. }
  destruct (String.eqb_spec authHeader EmptyString) as [Hh|Hh].
  { right. split; [none_passes Hinv | eauto]. }
  destruct (Nat.eqb_spec (length parts) 2) as [Hlen|Hlen]; cycle 1.
  { right. split; [none_passes Hinv | eauto]. }
  destruct (String.eqb_spec (nth 0 parts EmptyString) "Bearer") as [Hb|Hb];
    cycle 1.
  { right. split; [none_passes Hinv | eauto]. }
  pose proof (fun handler => Hstep handler Hh Hlen Hb) as Hrun.
  destruct parsed as [[token|] [e|]] eqn:Hp; try rewrite Hp in Hrun.
  - right. split; [none_passes Hinv | answered Hrun].
  - destruct (jwt.Valid token) eqn:Hv; cycle 1.
    { right. split; [none_passes Hinv | answered Hrun]. }
    destruct (jwt.claims token) as [claims|] eqn:Hc; cycle 1.
    { right. split; [none_passes Hinv | answered Hrun]. }
    cbn [negb] in Hrun.
    destruct (claims !! "sub") as [v|] eqn:Hsub; cycle 1.
    { right. split; [none_passes Hinv | answered Hrun]. }
    destruct v as [| | |userID| |];
      try (right; split; [none_passes Hinv | answered Hrun]).
    left. exists userID. split; [| exact Hrun].
    split; [exact Hh |]. exists (nth 1 parts EmptyString), token, claims.
    split; [by apply parts_two_bearer |]. done.
  - right. split; [none_passes Hinv | answered Hrun].
  - exfalso. by apply Parse_nil in Hp.
Qed.

(** *** Issuing and parsing *)

Lemma append_assoc (a b c : string) : (a ++ b) ++ c = a ++ b ++ c.
Proof.
  induction a as [|x a IH]; [done |].
  change (String x ((a ++ b) ++ c) = String x (a ++ b ++ c)). by f_equal.
Qed.

Lemma append_cons x (a b : string) : String x a ++ b = String x (a ++ b).
Proof. reflexivity. Qed.

Lemma dot_foreign : base64.foreign "."%char = true.
Proof. vm_compute. reflexivity. Qed.

Lemma space_foreign : base64.foreign " "%char = true.
Proof. vm_compute. reflexivity. Qed.

Lemma Parse_SignedString t key (m : gmap string any) :
  let token := jwt.NewWithClaims jwt.SigningMethodHS256 (jwt.MapClaims m) in
  jwt.reads_back jwt.json_Unmarshal (jwt.Header token) ->
  jwt.reads_back jwt.json_Decode m ->
  jwt.MapClaims_Valid m t = 0 ->
  exists tokenString parsed,
    jwt.SignedString token key = Some tokenString /\
    strings.free_of " "%char tokenString = true /\
    jwt.Parse t tokenString (fun _ => inl key) = (Some parsed, None) /\
    jwt.Valid parsed = true /\
    jwt.claims parsed = jwt.MapClaims m.
Proof.
  intros token (hb & Hhm & Hhu) (cb & Hcm & Hcd) Hvalid.
  set (h := jwt.EncodeSegment hb). set (c := jwt.EncodeSegment cb).
  set (sstr := h ++ String "."%char c).
  set (sig := jwt.hmac_Sum jwt.SHA256 key (list_ascii_of_string sstr)).
  set (g := jwt.EncodeSegment sig).
  assert (Hsigning : jwt.SigningString token = Some sstr).
  { unfold jwt.SigningString. rewrite Hhm. cbn [jwt.claims token jwt.NewWithClaims].
    rewrite Hcm. reflexivity. }
  assert (Hsigned : jwt.SignedString token key = Some (sstr ++ String "."%char g)).
  { unfold jwt.SignedString. rewrite Hsigning. reflexivity. }
  assert (Hfree : forall x, base64.foreign x = true ->
                    strings.free_of x h = true /\ strings.free_of x c = true /\ strings.free_of x g = true).
  { intros x Hx. repeat split; by apply free_of_EncodeSegment. }
  destruct (Hfree "."%char dot_foreign) as (Hh & Hc & Hg).
  assert (Hsplit : strings.Split (sstr ++ String "."%char g) "."%char = [h; c; g]).
  { unfold sstr. rewrite append_assoc, append_cons.
    rewrite !Split_app by done. by rewrite Split_free. }
  assert (Halg : jwt.Header token !! "alg" = Some (Str "HS256")).
  { subst token. unfold jwt.NewWithClaims. cbn [jwt.Header].
    rewrite lookup_insert_ne by done. apply lookup_singleton_eq. }
  assert (Hunverified :
            jwt.ParseUnverified (sstr ++ String "."%char g)
            = (Some {| jwt.Raw := sstr ++ String "."%char g;
                       jwt.Method := Some jwt.SigningMethodHS256;
                       jwt.Header := jwt.Header token;
                       jwt.claims := jwt.MapClaims m;
                       jwt.Signature := EmptyString;
                       jwt.Valid := false |}, [h; c; g], None)).
  { unfold jwt.ParseUnverified. rewrite Hsplit. cbn [length Nat.eqb negb nth].
    unfold h at 1. rewrite DecodeSegment_EncodeSegment, Hhu.
    unfold c at 1. rewrite DecodeSegment_EncodeSegment, Hcd.
    rewrite Halg. reflexivity. }
  exists (sstr ++ String "."%char g). eexists.
  split; [exact Hsigned |]. split.
  { destruct (Hfree " "%char space_foreign) as (Hh' & Hc' & Hg').
    unfold sstr. rewrite !free_of_app. cbn [strings.free_of].
    rewrite Hh', Hc', Hg'. reflexivity. }
  unfold jwt.Parse. rewrite Hunverified.
  cbn [jwt.claims jwt.Method jwt.Raw jwt.Header nth firstn].
  rewrite Hvalid.
  assert (Hverify : jwt.Verify jwt.SigningMethodHS256
                      (strings.Join [h; c] ".") g key = true).
  { unfold jwt.Verify, jwt.SigningMethodHS256. unfold g.
    rewrite DecodeSegment_EncodeSegment. apply bool_decide_eq_true. reflexivity. }
  rewrite Hverify. cbn [Z.eqb]. split; [reflexivity |]. split; reflexivity.
Qed.


Lemma Split_bearer tokenString :
  strings.free_of " "%char tokenString = true ->
  strings.Split ("Bearer " ++ tokenString) " "%char = ["Bearer"; tokenString].
Proof.
  intros Hfree.
  change ("Bearer " ++ tokenString) with ("Bearer" ++ String " "%char tokenString).
  rewrite Split_app by reflexivity. by rewrite Split_free.
Qed.

(** C5: where the JSON codec reads back the header and the claims object
    it wrote and the claims validation accepts claims that hold only [sub],
    a login of the owner ["507f1f77bcf86cd799439011"] answers [OK] with a
    token signed with the server's secret; parsing that token with the same
    secret succeeds at any time, with exactly that string as its [sub]
    claim, and the gateway, given the token as [Bearer] header, invokes the
    handler with exactly that string bound as the owner identity. *)
Theorem issued_token_round_trip (s : WebServer) (st : State)
    (req : LoginRequest) (b : Backend) :
  jwt.reads_back jwt.json_Unmarshal hs256_header ->
  jwt.reads_back jwt.json_Decode owner_claims ->
  (forall t, jwt.MapClaims_Valid owner_claims t = 0) ->
  ValidateLogin (ctx st) = inl req ->
  LoginUser (Username req) (Password req) (backend st) = (inl owner, b) ->
  exists tokenString st',
    loginUser s st = Returned None st' /\
    status (ctx st') = StatusOK /\
    body (ctx st') = JSONBody (Map [("jwtToken", Str tokenString)]) /\
    (forall t, exists token,
       jwt.Parse t tokenString (keyFunc s) = (Some token, None) /\
       jwt.Valid token = true /\
       jwt.claims token = jwt.MapClaims owner_claims /\
       owner_claims !! "sub" = Some (Str owner)) /\
    (forall st2, Get (ctx st2) "Authorization" = "Bearer " ++ tokenString ->
       invokes s st2 owner).
Proof.
  intros Hheader Hclaims Hvalid Hreq Hlogin.
  set (key := list_ascii_of_string (jwtSecret s)).
  destruct (Parse_SignedString 0 key owner_claims Hheader Hclaims (Hvalid 0))
    as (tokenString & _ & Hsigned & Hfree & _).
  assert (Hparse : forall t, exists token,
            jwt.Parse t tokenString (keyFunc s) = (Some token, None) /\
            jwt.Valid token = true /\
            jwt.claims token = jwt.MapClaims owner_claims /\
            owner_claims !! "sub" = Some (Str owner)).
  { intros t.
    destruct (Parse_SignedString t key owner_claims Hheader Hclaims (Hvalid t))
      as (tokenString' & token & Hsigned' & _ & Hp & Hv & Hc).
    rewrite Hsigned in Hsigned'. injection Hsigned' as <-.
    exists token. repeat split; try done; apply lookup_singleton_eq. }
  exists tokenString. eexists. split.
  { unfold loginUser. run_M. cbn [ctx]. rewrite Hreq. cbn [backend].
    rewrite Hlogin. fold owner_claims. fold key.
    change (jwt.SignedString _ key) with
      (jwt.SignedString (jwt.NewWithClaims jwt.SigningMethodHS256
                           (jwt.MapClaims owner_claims)) key).
    rewrite Hsigned. reflexivity. }
  split; [reflexivity |]. split; [reflexivity |]. split; [exact Hparse |].
  intros st2 Hauth. apply tokenRequired_invokes.
  destruct (Hparse (now st2)) as (token & Hp & Hv & Hc & Hsub).
  split.
  { rewrite Hauth. discriminate. }
  exists tokenString, token, owner_claims. rewrite Hauth.
  split; [by apply Split_bearer |]. done.
Qed.

Lemma fromHexChar_None c : is_hex_digit c = false -> fromHexChar c = None.
Proof.
  unfold is_hex_digit, fromHexChar. cbv zeta.
  destruct ((48 <=? N_of_ascii c)%N && (N_of_ascii c <=? 57)%N); [done |].
  destruct ((97 <=? N_of_ascii c)%N && (N_of_ascii c <=? 102)%N); [done |].
  destruct ((65 <=? N_of_ascii c)%N && (N_of_ascii c <=? 70)%N); done.
Qed.

Lemma hex_decode_bad s acc :
  forallb is_hex_digit (list_ascii_of_string s) = false ->
  exists e, hex_decode s acc = inr e.
Proof.
  revert acc. induction s as [|c s IH]; intros acc; [done |].
  cbn [list_ascii_of_string forallb hex_decode].
  destruct (is_hex_digit c) eqn:Hc.
  - intros Hs. destruct (fromHexChar c); eauto.
  - intros _. rewrite fromHexChar_None by done. eauto.
Qed.

Lemma ObjectIDFromHex_bad userID :
  is_hex24 userID = false -> exists e, ObjectIDFromHex userID = inr e.
Proof.
  unfold is_hex24, ObjectIDFromHex.
  destruct (String.length userID =? 24)%nat; cbn [negb andb]; [| eauto].
  apply hex_decode_bad.
Qed.


End Gateway.

(** *** The theorems in the small world of the examples *)

#[local] Existing Instance example.floats.
#[local] Existing Instance example.libraries.
#[local] Existing Instance example.services.

Lemma token_required_checks_witness :
  rejects example.server (example.request "Bearer garbage") "Invalid token" /\
  status (ctx (unauthorized "Invalid token" (example.request "Bearer garbage")))
  = StatusUnauthorized.
Proof.
  pose proof (token_required_checks example.server (example.request "Bearer garbage"))
    as Hgate.
  cbv zeta in Hgate. destruct Hgate as (_ & _ & Hparse & Hstatus & _).
  split; [| apply Hstatus].
  apply Hparse.
  - vm_compute. discriminate.
  - vm_compute. reflexivity.
  - vm_compute. reflexivity.
  - left. eexists. vm_compute. reflexivity.
Defined.

Lemma issued_token_round_trip_witness :
  exists tokenString st',
    loginUser example.server (example.request EmptyString) = Returned None st' /\
    body (ctx st') = JSONBody (Map [("jwtToken", Str tokenString)]) /\
    invokes example.server (example.request ("Bearer " ++ tokenString)) owner.
Proof.
  assert (Hheader : jwt.reads_back jwt.json_Unmarshal hs256_header)
    by (eexists; split; vm_compute; reflexivity).
  assert (Hclaims : jwt.reads_back jwt.json_Decode owner_claims)
    by (eexists; split; vm_compute; reflexivity).
  assert (Hvalid : forall t, jwt.MapClaims_Valid owner_claims t = 0)
    by (intros t; reflexivity).
  destruct (issued_token_round_trip example.server (example.request EmptyString)
              {| Username := "ada"; Password := "lovelace" |} tt
              Hheader Hclaims Hvalid eq_refl eq_refl)
    as (tokenString & st' & Hlogin & _ & Hbody & _ & Hinvokes).
  exists tokenString, st'. split; [exact Hlogin |]. split; [exact Hbody |].
  apply Hinvokes. unfold Get. cbn [ctx example.request reqHeaders].
  by rewrite lookup_singleton_eq.
Defined.


End GatewayProperties.

(** * The gateway and the time claims *)
Module ExpiryProperties.
Import primitive fiber http web GatewayProperties.

#[local] Existing Instance example.floats.
#[local] Existing Instance dated.libraries.
#[local] Existing Instance example.services.


End ExpiryProperties.

(** * More properties of the scene store: how the calls compose *)
Module StoreProperties.
Import primitive mongo scene calls.

Section Props.
Context `{Payloads}.
Implicit Types (ctx : Context) (id : ObjectID) (c : Docs) (sm : SceneManager Docs).

Lemma write_mem ctx sm id w :
  write ctx sm id w
  = (None, with_collection sm (upserted (collection sm) id (field w) (value w))).
Proof.
  destruct w; cbn [write field value].
  - apply SceneProperties.SetTrainingConfig_mem.
  - apply SceneProperties.SetVideo_mem.
  - apply SceneProperties.SetSfm_mem.
  - apply SceneProperties.SetNerf_mem.
  - apply SceneProperties.SetSceneName_mem.
Qed.

Lemma upserted_commute c id1 id2 key1 key2 v1 v2 :
  id1 <> id2 \/ key1 <> key2 ->
  upserted (upserted c id1 key1 v1) id2 key2 v2
  = upserted (upserted c id2 key2 v2) id1 key1 v1.
Proof.
  intros Hne. unfold upserted.
  destruct (decide (id1 = id2)) as [<-|Hid].
  - destruct Hne as [|Hkey]; [done |].
    rewrite !lookup_insert_eq. cbn [default].
    rewrite !insert_insert_eq. f_equal. by apply insert_insert_ne.
  - rewrite !lookup_insert_ne by done. by apply insert_insert_ne.
Qed.

(** The getters on a reachable collection, by the stored field. *)
Ltac run_getter :=
  cbn [FindOne memdb]; unfold mem_FindOne, Decode_ptr, Decode_name;
  repeat match goal with
         | Hc : ?c !! ?id = _ |- context [ ?c !! ?id ] => rewrite Hc
         | Hd : ?d !! ?k = _ |- context [ ?d !! ?k ] => rewrite Hd
         end;
  try reflexivity.

Lemma lookup_upserted c id key v :
  upserted c id key v !! id = Some (<[ key := v ]> (default ∅ (c !! id))).
Proof. unfold upserted. apply lookup_insert_eq. Qed.

(** X1: whatever the driver answers, each of [GetVideo], [GetSfm], [GetNerf]
    and [GetTrainingConfig] returns either a value and no error or no value
    and an error, so that a caller that has checked the error may follow the
    pointer; [GetSceneName] returns the empty string whenever it returns an
    error. *)
Theorem getters_value_or_error {C} `{!Collection C} ctx (sm : SceneManager C) id :
  value_xor_error (GetVideo ctx sm id) /\
  value_xor_error (GetSfm ctx sm id) /\
  value_xor_error (GetNerf ctx sm id) /\
  value_xor_error (GetTrainingConfig ctx sm id) /\
  ((GetSceneName ctx sm id).2 <> None -> (GetSceneName ctx sm id).1 = EmptyString).
Proof.
  unfold value_xor_error, GetVideo, GetSfm, GetNerf, GetTrainingConfig, GetSceneName.
  repeat split;
    repeat (case_match; cbn [fst snd]); eauto; try done.
Qed.

(** X2: a failure of the driver is handed on unchanged, and the manager keeps
    the collection the driver left: a failed upsert by each setter, a failed
    delete by [DeleteScene]; a failed find by each getter, except that the
    driver's [ErrNoDocuments] is reported as [ErrSceneNotFound]. *)
Theorem driver_failures_pass_through {C} `{!Collection C} ctx
    (sm : SceneManager C) id e :
  (forall w (kept : C),
     UpdateOne ctx (collection sm) (by_id id)
       (set_fields {[ field w := value w ]}) {| Upsert := true |} = (inr e, kept) ->
     write ctx sm id w = (Some (FromDriver e), with_collection sm kept)) /\
  (forall kept : C,
     DeleteOne ctx (collection sm) (by_id id) = (inr e, kept) ->
     DeleteScene ctx sm id = (Some (FromDriver e), with_collection sm kept)) /\
  (FindOne ctx (collection sm) (by_id id) = SingleErr e ->
     GetVideo ctx sm id = (None, Some (reported e)) /\
     GetSfm ctx sm id = (None, Some (reported e)) /\
     GetNerf ctx sm id = (None, Some (reported e)) /\
     GetTrainingConfig ctx sm id = (None, Some (reported e)) /\
     GetSceneName ctx sm id = (EmptyString, Some (reported e))).
Proof.
  split; [| split].
  - intros w kept Hup.
    destruct w; cbn [write field value] in *;
      unfold SetTrainingConfig, SetVideo, SetSfm, SetNerf, SetSceneName;
      by rewrite Hup.
  - intros kept Hdel. unfold DeleteScene. by rewrite Hdel.
  - intros Hfind.
    unfold GetVideo, GetSfm, GetNerf, GetTrainingConfig, GetSceneName, reported.
    rewrite Hfind. cbn [Decode_ptr Decode_name].
    destruct (decide (e = ErrNoDocuments)); done.
Qed.

(** X3: whatever the driver answers, [DeleteScene] returns [ErrSceneNotFound]
    exactly when the delete went through and removed nothing, and no error
    exactly when it removed something; on a reachable collection the first
    is the case exactly when the identifier has no document, and the
    collection is then left as it was. *)
Theorem delete_scene_error_contract ctx :
  (forall (C : Type) (D : Collection C) (sm : SceneManager C) id,
     let answer := (DeleteOne ctx (collection sm) (by_id id)).1 in
     ((DeleteScene ctx sm id).1 = Some ErrSceneNotFound <->
      exists res, answer = inl res /\ DeletedCount res = 0) /\
     ((DeleteScene ctx sm id).1 = None <->
      exists res, answer = inl res /\ DeletedCount res <> 0)) /\
  (forall sm id,
     ((DeleteScene ctx sm id).1 = Some ErrSceneNotFound <->
      collection sm !! id = None) /\
     (collection sm !! id = None -> (DeleteScene ctx sm id).2 = sm)).
Proof.
  split.
  - intros C D sm id answer. subst answer. unfold DeleteScene.
    destruct (DeleteOne ctx (collection sm) (by_id id)) as [[res|e] kept];
      cbn [fst].
    + destruct (Z.eqb_spec (DeletedCount res) 0) as [Hz|Hz]; cbn [fst];
        (split;
         (split;
          [ intros Hr; first [ discriminate Hr | by eexists ]
          | intros (res' & [= <-] & Hcnt); first [ reflexivity | lia ] ])).
    + split; split; first [ discriminate | by intros (res' & [=] & _) ].
  - intros sm id. rewrite SceneProperties.DeleteScene_mem. cbn [fst snd].
    split.
    + destruct (collection sm !! id); split; done.
    + intros Hc. rewrite delete_id by done. by destruct sm.
Qed.

Lemma get_after_upsert ctx sm id key v :
  FindOne ctx (collection (with_collection sm (upserted (collection sm) id key v)))
    (by_id id)
  = SingleDoc (<[ key := v ]> (default ∅ (collection sm !! id))).
Proof.
  cbn [FindOne memdb collection with_collection]. unfold mem_FindOne.
  by rewrite lookup_upserted.
Qed.

(** X4: on a reachable collection a getter returns what the setter of the
    same field has just stored, whatever the collection held before, for
    each of the five fields. *)
Theorem set_then_get ctx ctx' sm id :
  (forall v, GetVideo ctx' (SetVideo ctx sm id (Some v)).2 id = (Some v, None)) /\
  (forall v, GetSfm ctx' (SetSfm ctx sm id (Some v)).2 id = (Some v, None)) /\
  (forall v, GetNerf ctx' (SetNerf ctx sm id (Some v)).2 id = (Some v, None)) /\
  (forall v, GetTrainingConfig ctx' (SetTrainingConfig ctx sm id (Some v)).2 id
             = (Some v, None)) /\
  (forall name, GetSceneName ctx' (SetSceneName ctx sm id name).2 id
                = (name, None)).
Proof.
  repeat split; intros v.
  - rewrite SceneProperties.SetVideo_mem. cbn [snd]. unfold GetVideo.
    rewrite get_after_upsert. unfold Decode_ptr. by rewrite lookup_insert_eq.
  - rewrite SceneProperties.SetSfm_mem. cbn [snd]. unfold GetSfm.
    rewrite get_after_upsert. unfold Decode_ptr. by rewrite lookup_insert_eq.
  - rewrite SceneProperties.SetNerf_mem. cbn [snd]. unfold GetNerf.
    rewrite get_after_upsert. unfold Decode_ptr. by rewrite lookup_insert_eq.
  - rewrite SceneProperties.SetTrainingConfig_mem. cbn [snd].
    unfold GetTrainingConfig.
    rewrite get_after_upsert. unfold Decode_ptr. by rewrite lookup_insert_eq.
  - rewrite SceneProperties.SetSceneName_mem. cbn [snd]. unfold GetSceneName.
    rewrite get_after_upsert. unfold Decode_name. by rewrite lookup_insert_eq.
Qed.

(** X5: a setter called with a nil pointer succeeds and stores a null: the
    document exists afterwards (it is created when it was not there), but
    the getter of that field fails with the not-found error of the
    sub-resource, also when the field held a value before. *)
Theorem set_nil_reads_as_not_found ctx ctx' sm id :
  let after_nil {A} (set : error * SceneManager Docs)
        (get : SceneManager Docs -> option A * error) (missing : err) :=
    set.1 = None /\
    is_Some (collection set.2 !! id) /\
    get set.2 = (None, Some missing) in
  after_nil (SetVideo ctx sm id None) (fun sm' => GetVideo ctx' sm' id)
    ErrVideoNotFound /\
  after_nil (SetSfm ctx sm id None) (fun sm' => GetSfm ctx' sm' id)
    ErrSfmNotFound /\
  after_nil (SetNerf ctx sm id None) (fun sm' => GetNerf ctx' sm' id)
    ErrNerfNotFound /\
  after_nil (SetTrainingConfig ctx sm id None)
    (fun sm' => GetTrainingConfig ctx' sm' id) ErrTrainingConfigNotFound.
Proof.
  intros after_nil. subst after_nil. cbv beta.
  rewrite SceneProperties.SetVideo_mem, SceneProperties.SetSfm_mem,
    SceneProperties.SetNerf_mem, SceneProperties.SetTrainingConfig_mem.
  cbn [fst snd].
  unfold GetVideo, GetSfm, GetNerf, GetTrainingConfig.
  rewrite !get_after_upsert. unfold Decode_ptr. rewrite !lookup_insert_eq.
  cbn [enc_ptr collection with_collection].
  repeat split; apply SceneProperties.upserted_is_Some.
Qed.

(** X6: on a reachable collection two setter calls on different scenes, or on
    different fields of one scene, leave the same collection in either
    order, and both succeed in either order. *)
Theorem writes_commute ctx1 ctx2 ctx3 ctx4 sm id1 id2 w1 w2 :
  id1 <> id2 \/ field w1 <> field w2 ->
  let one_two := write ctx2 (write ctx1 sm id1 w1).2 id2 w2 in
  let two_one := write ctx4 (write ctx3 sm id2 w2).2 id1 w1 in
  one_two = two_one /\ one_two.1 = None /\
  (write ctx1 sm id1 w1).1 = None /\ (write ctx3 sm id2 w2).1 = None.
Proof.
  intros Hne one_two two_one. subst one_two two_one.
  rewrite !write_mem. cbn [fst snd collection with_collection logger].
  unfold with_collection. cbn [collection logger].
  rewrite (upserted_commute _ id1 id2) by done. done.
Qed.

(** X7: on a reachable collection, of two setter calls on the same field of
    the same scene the later one wins: the collection is the one the later
    call alone would have left. *)
Theorem last_write_wins ctx1 ctx2 ctx3 sm id w1 w2 :
  field w1 = field w2 ->
  write ctx2 (write ctx1 sm id w1).2 id w2 = write ctx3 sm id w2.
Proof.
  intros Hsame. rewrite !write_mem. cbn [snd collection with_collection].
  unfold with_collection. cbn [collection logger].
  by rewrite Hsame, SceneProperties.upserted_twice.
Qed.

(** X8: on a reachable collection [DeleteScene] after a setter call on the
    same scene always succeeds and leaves the collection without the
    scene, as if the call had not been made; a setter call after
    [DeleteScene] leaves a document that holds the written field alone:
    nothing of the deleted document comes back. *)
Theorem delete_and_recreate ctx1 ctx2 sm id w :
  DeleteScene ctx2 (write ctx1 sm id w).2 id
  = (None, with_collection sm (delete id (collection sm))) /\
  collection (write ctx2 (DeleteScene ctx1 sm id).2 id w).2
  = <[ id := {[ field w := value w ]} ]> (collection sm) /\
  (forall key, key <> field w ->
     stored (collection (write ctx2 (DeleteScene ctx1 sm id).2 id w).2) id key
     = None).
Proof.
  rewrite SceneProperties.DeleteScene_mem, !write_mem.
  cbn [fst snd collection with_collection].
  rewrite SceneProperties.DeleteScene_mem. cbn [snd collection with_collection].
  assert (Hnew : upserted (delete id (collection sm)) id (field w) (value w)
                 = <[ id := {[ field w := value w ]} ]> (collection sm)).
  { unfold upserted. rewrite lookup_delete_eq. cbn [default].
    by rewrite insert_delete_eq, insert_empty. }
  split; [| split].
  - rewrite lookup_upserted. f_equal. unfold with_collection.
    cbn [collection logger]. f_equal. unfold upserted.
    rewrite delete_insert_eq. destruct (collection sm !! id) eqn:Hc; [done |].
    by rewrite delete_id.
  - exact Hnew.
  - intros key Hkey. rewrite Hnew. unfold stored. rewrite lookup_insert_eq.
    cbn. by apply lookup_singleton_ne.
Qed.

End Props.

(** *** The theorems at concrete scenes *)

Import example fixtures.

Lemma driver_failures_pass_through_witness :
  SetVideo (Collection0 := unreachable) context_TODO unreachable_manager 7%N None
  = (Some (FromDriver timeout), unreachable_manager) /\
  GetVideo (Collection0 := unreachable) context_TODO unreachable_manager 7%N
  = (None, Some (FromDriver timeout)) /\
  DeleteScene (Collection0 := unreachable) context_TODO unreachable_manager 7%N
  = (Some (FromDriver timeout), unreachable_manager).
Proof.
  destruct (@driver_failures_pass_through text_payloads unit unreachable
              context_TODO unreachable_manager 7%N timeout)
    as (Hset & Hdelete & Hget).
  split; [exact (Hset (WriteVideo None) tt eq_refl) |].
  split; [exact (proj1 (Hget eq_refl)) | exact (Hdelete tt eq_refl)].
Defined.

Lemma writes_commute_witness :
  let w1 := @WriteVideo text_payloads (Some "raw/9.mp4") in
  let w2 := @WriteSfm text_payloads (Some "sfm/9.json") in
  field w1 <> field w2 /\
  write context_TODO (write context_TODO named_scene 9%N w1).2 9%N w2
  = write context_TODO (write context_TODO named_scene 9%N w2).2 9%N w1.
Proof.
  intros w1 w2.
  assert (Hne : field w1 <> field w2) by discriminate.
  split; [exact Hne |].
  exact (proj1 (writes_commute context_TODO context_TODO context_TODO context_TODO
                  named_scene 9%N 9%N w1 w2 (or_intror Hne))).
Defined.

Lemma last_write_wins_witness :
  let w1 := @WriteSceneName text_payloads "orchard" in
  let w2 := @WriteSceneName text_payloads "meadow" in
  field w1 = field w2 /\
  write context_TODO (write context_TODO named_scene 9%N w1).2 9%N w2
  = write context_TODO named_scene 9%N w2 /\
  GetSceneName context_TODO (write context_TODO named_scene 9%N w2).2 9%N
  = ("meadow", None).
Proof.
  intros w1 w2. split; [reflexivity |]. split; [| reflexivity].
  exact (last_write_wins context_TODO context_TODO context_TODO named_scene 9%N
           w1 w2 eq_refl).
Defined.

End StoreProperties.

(** * More properties of the gateway, and the routes around it *)
Module AccessProperties.
Import tokens.
Import primitive fiber http web CodecProperties GatewayProperties.

(** *** Splitting and joining *)

Lemma Split_nonempty s sep : strings.Split s sep <> [].
Proof.
  destruct s as [|c s]; [done |]. cbn [strings.Split].
  destruct (Ascii.eqb c sep); [done |].
  by destruct (strings.Split s sep).
Qed.

Lemma Join_cons e parts sep :
  parts <> [] -> strings.Join (e :: parts) sep = e ++ sep ++ strings.Join parts sep.
Proof. by destruct parts. Qed.

Lemma Join_Split s sep :
  strings.Join (strings.Split s sep) (String sep EmptyString) = s.
Proof.
  induction s as [|c s IH]; [done |]. cbn [strings.Split].
  destruct (Ascii.eqb_spec c sep) as [->|Hne].
  - rewrite Join_cons by apply Split_nonempty. by rewrite IH.
  - pose proof (Split_nonempty s sep) as Hs.
    destruct (strings.Split s sep) as [|part [|part' parts]]; [done | |].
    + cbn in IH |- *. by rewrite IH.
    + cbn [strings.Join] in IH |- *. rewrite append_cons. by rewrite IH.
Qed.

(** *** What a segment that decodes is made of *)

Lemma decodeMap_foreign c : base64.foreign c = true -> base64.decodeMap c = 255.
Proof.
  unfold base64.foreign, base64.decodeMap. intros [_ Hall]%andb_prop.
  revert Hall. generalize 0.
  induction (list_ascii_of_string base64.encodeURL) as [|x l IH]; intros i; [done |].
  cbn [forallb base64.index_from]. intros [Hx Hl]%andb_prop.
  apply negb_true_iff in Hx. rewrite Hx. by apply IH.
Qed.

Lemma decode_from_free c s dbuf decoded :
  base64.foreign c = true -> base64.is_newline c = false ->
  base64.decode_from base64.RawURLEncoding s dbuf = Some decoded ->
  strings.free_of c s = true.
Proof.
  intros Hc Hnl. revert dbuf decoded.
  induction s as [|x s IH]; intros dbuf decoded; [done |].
  cbn [base64.decode_from strings.free_of].
  destruct (Ascii.eqb_spec x c) as [->|Hne].
  - rewrite decodeMap_foreign by done. cbn [Z.eqb negb]. rewrite Hnl.
    unfold base64.is_pad. cbn. done.
  - cbn [negb andb].
    destruct (negb (base64.decodeMap x =? 255)).
    + destruct (length dbuf =? 3)%nat.
      * destruct (base64.decode_from _ s []) eqn:Hd; [| done].
        intros _. by eapply IH.
      * apply IH.
    + destruct (base64.is_newline x); [apply IH |].
      unfold base64.is_pad. cbn. done.
Qed.

Lemma DecodeSegment_free c seg decoded :
  base64.foreign c = true -> base64.is_newline c = false ->
  jwt.DecodeSegment seg = Some decoded -> strings.free_of c seg = true.
Proof. intros Hc Hnl. apply decode_from_free; done. Qed.

(** Running a handler: the binds of [M] unfolded. *)
Ltac run_M :=
  repeat (progress
            (unfold mbind, M_bind, mret, M_ret, getCtx, Now, putCtx, Info,
               respond_JSON, respond_Send, Locals_string, call, panic;
             cbv beta iota; cbn [ctx logged now backend])).

Section Gateway.
Context `{GoFloat} `{!jwt.Libraries} `{!Services}.

Ltac none_passes Hinv :=
  let u := fresh "u" in
  let Hu := fresh "Hu" in
  intros u Hu;
  apply Hinv in Hu as (? & ? & ? & ? & ? & ? & ? & ? & ?);
  congruence.

Ltac answered Hrun :=
  let handler := fresh "handler" in
  eexists; intros handler; rewrite Hrun; reflexivity.

Lemma GetSigningMethod_HMAC name name' hash :
  jwt.GetSigningMethod name = Some (jwt.SigningMethodHMAC name' hash) ->
  name' = name /\ In (name, hash) [("HS256", jwt.SHA256); ("HS384", jwt.SHA384);
                                   ("HS512", jwt.SHA512)].
Proof.
  unfold jwt.GetSigningMethod.
  destruct (String.eqb_spec name "HS256") as [->|_].
  { intros [= <- <-]. split; [done |]. left. done. }
  destruct (String.eqb_spec name "HS384") as [->|_].
  { intros [= <- <-]. split; [done |]. right. left. done. }
  destruct (String.eqb_spec name "HS512") as [->|_].
  { intros [= <- <-]. split; [done |]. right. right. left. done. }
  by destruct (existsb _ _).
Qed.

(** The token and the segments of a parse that stops at nothing. *)
Lemma ParseUnverified_ok tokenString token parts :
  jwt.ParseUnverified tokenString = (Some token, parts, None) ->
  exists h c g header cl name m,
    parts = [h; c; g] /\
    strings.Split tokenString "."%char = [h; c; g] /\
    jwt.DecodeSegment h ≫= jwt.json_Unmarshal = Some header /\
    header !! "alg" = Some (Str name) /\
    jwt.GetSigningMethod name = Some m /\
    jwt.DecodeSegment c ≫= jwt.json_Decode = Some cl /\
    token = {| jwt.Raw := tokenString; jwt.Method := Some m;
               jwt.Header := header; jwt.claims := jwt.MapClaims cl;
               jwt.Signature := EmptyString; jwt.Valid := false |}.
Proof.
  unfold jwt.ParseUnverified.
  destruct (strings.Split tokenString "."%char) as [|h [|c [|g [|x l]]]] eqn:Hs;
    cbn [length Nat.eqb negb nth]; try (intros [=]; fail).
  destruct (jwt.DecodeSegment h) as [hb|] eqn:Hh; [| intros [=]].
  destruct (jwt.json_Unmarshal hb) as [header|] eqn:Hhu; [| intros [=]].
  destruct (jwt.DecodeSegment c) as [cb|] eqn:Hc; [| intros [=]].
  destruct (jwt.json_Decode cb) as [cl|] eqn:Hcd; [| intros [=]].
  destruct (header !! "alg") as [[| | |name| |]|] eqn:Halg; try (intros [=]; fail).
  destruct (jwt.GetSigningMethod name) as [m|] eqn:Hm; [| intros [=]].
  intros [= <- <-].
  exists h, c, g, header, cl, name, m.
  rewrite Hh, Hc. cbn. rewrite Hhu, Hcd. done.
Qed.

Lemma lor_signature_invalid v :
  Z.lor v jwt.ValidationErrorSignatureInvalid <> 0.
Proof.
  intros Hz. apply Z.lor_eq_0_iff in Hz as [_ Hz]. discriminate.
Qed.

(** A parse that returns a token and no error: what the token string is
    made of. *)
Lemma Parse_ok (s : WebServer) t tokenString token :
  jwt.Parse t tokenString (keyFunc s) = (Some token, None) ->
  exists h c g header cl name hash,
    strings.Split tokenString "."%char = [h; c; g] /\
    jwt.DecodeSegment h ≫= jwt.json_Unmarshal = Some header /\
    header !! "alg" = Some (Str name) /\
    jwt.GetSigningMethod name = Some (jwt.SigningMethodHMAC name hash) /\
    jwt.DecodeSegment c ≫= jwt.json_Decode = Some cl /\
    jwt.MapClaims_Valid cl t = 0 /\
    jwt.DecodeSegment g
    = Some (jwt.hmac_Sum hash (list_ascii_of_string (jwtSecret s))
              (list_ascii_of_string (h ++ "." ++ c))) /\
    token = {| jwt.Raw := tokenString;
               jwt.Method := Some (jwt.SigningMethodHMAC name hash);
               jwt.Header := header; jwt.claims := jwt.MapClaims cl;
               jwt.Signature := g; jwt.Valid := true |}.
Proof.
  unfold jwt.Parse.
  destruct (jwt.ParseUnverified tokenString) as [[[tok|] parts] [e|]] eqn:Hp;
    try (intros [=]; fail).
  apply ParseUnverified_ok in Hp
    as (h & c & g & header & cl & name & m & -> & Hs & Hh & Halg & Hm & Hc & ->).
  cbn [keyFunc jwt.claims jwt.Method jwt.Raw jwt.Header nth firstn].
  destruct (jwt.Verify m _ g _) eqn:Hv; cycle 1.
  { destruct (Z.eqb_spec (Z.lor (jwt.MapClaims_Valid cl t)
                            jwt.ValidationErrorSignatureInvalid) 0) as [Hz|_];
      [| intros [=]].
    by apply lor_signature_invalid in Hz. }
  destruct (Z.eqb_spec (jwt.MapClaims_Valid cl t) 0) as [Hz|_]; [| intros [=]].
  intros [= <-].
  destruct m as [name' hash|name']; [| done].
  apply GetSigningMethod_HMAC in Hm as Hname. destruct Hname as [-> _].
  unfold jwt.Verify in Hv.
  destruct (jwt.DecodeSegment g) as [sig|] eqn:Hg; [| done].
  apply bool_decide_eq_true in Hv. subst sig.
  exists h, c, g, header, cl, name, hash. done.
Qed.

Lemma Parse_well_signed (s : WebServer) t h c g userID :
  well_signed s t h c g userID ->
  exists token cl,
    jwt.Parse t (h ++ "." ++ c ++ "." ++ g) (keyFunc s) = (Some token, None) /\
    jwt.Valid token = true /\
    jwt.claims token = jwt.MapClaims cl /\
    cl !! "sub" = Some (Str userID).
Proof.
  intros (header & cl & name & hash & Hh & Halg & Hm & Hc & Hvalid & Hsub & Hg).
  destruct (jwt.DecodeSegment h) as [hb|] eqn:Hhd; [| done].
  destruct (jwt.DecodeSegment c) as [cb|] eqn:Hcd; [| done].
  cbn in Hh, Hc.
  assert (Hsplit : strings.Split (h ++ "." ++ c ++ "." ++ g) "."%char = [h; c; g]).
  { change (h ++ "." ++ c ++ "." ++ g)
      with (h ++ String "."%char (c ++ String "."%char g)).
    rewrite !Split_app, Split_free;
      first done; eapply DecodeSegment_free; eauto using dot_foreign. }
  eexists. exists cl.
  unfold jwt.Parse, jwt.ParseUnverified. rewrite Hsplit.
  cbn [length Nat.eqb negb nth]. rewrite Hhd, Hh, Hcd, Hc, Halg, Hm.
  cbn [keyFunc jwt.claims jwt.Method jwt.Raw jwt.Header nth firstn].
  rewrite Hvalid. unfold jwt.Verify. rewrite Hg.
  change (strings.Join [h; c] ".") with (h ++ "." ++ c).
  rewrite bool_decide_eq_true_2 by done. cbn [Z.eqb].
  split; [reflexivity |]. done.
Qed.

Lemma passes_well_signed (s : WebServer) (st : State) (userID : string) :
  checks_pass s st userID ->
  exists h c g,
    Get (ctx st) "Authorization" = "Bearer " ++ h ++ "." ++ c ++ "." ++ g /\
    well_signed s (now st) h c g userID.
Proof.
  intros (Hh & tokenString & token & claims & Hs & Hp & Hv & Hc & Hsub).
  apply Parse_ok in Hp
    as (h & c & g & header & cl & name & hash & Hsplit & Hhd & Halg & Hm & Hcd
        & Hvalid & Hg & ->).
  cbn [jwt.claims] in Hc. injection Hc as <-.
  exists h, c, g. split.
  - rewrite <- (Join_Split (Get (ctx st) "Authorization") " "%char), Hs.
    rewrite <- (Join_Split tokenString "."%char), Hsplit. reflexivity.
  - exists header, cl, name, hash. done.
Qed.

Lemma well_signed_free (s : WebServer) t h c g userID :
  well_signed s t h c g userID ->
  strings.free_of " "%char (h ++ "." ++ c ++ "." ++ g) = true.
Proof.
  intros (header & cl & name & hash & Hhd & _ & _ & Hcd & _ & _ & Hg).
  destruct (jwt.DecodeSegment h) eqn:Hh'; [| done].
  destruct (jwt.DecodeSegment c) eqn:Hc'; [| done].
  rewrite !free_of_app. cbn [strings.free_of].
  rewrite (DecodeSegment_free " "%char h _ space_foreign eq_refl Hh').
  rewrite (DecodeSegment_free " "%char c _ space_foreign eq_refl Hc').
  rewrite (DecodeSegment_free " "%char g _ space_foreign eq_refl Hg).
  reflexivity.
Qed.

Lemma well_signed_passes (s : WebServer) (st : State) h c g (userID : string) :
  Get (ctx st) "Authorization" = "Bearer " ++ h ++ "." ++ c ++ "." ++ g ->
  well_signed s (now st) h c g userID ->
  checks_pass s st userID.
Proof.
  intros Hauth Hsigned.
  destruct (Parse_well_signed s (now st) h c g userID Hsigned)
    as (token & cl' & Hp & Hv & Hc & Hsub).
  split; [rewrite Hauth; discriminate |].
  exists (h ++ "." ++ c ++ "." ++ g), token, cl'. rewrite Hauth.
  split; [| done].
  apply Split_bearer. by eapply well_signed_free.
Qed.

(** For every request the gateway either hands over to the handler or
    answers [Unauthorized]; which of the two does not depend on the
    handler. *)
Lemma tokenRequired_decides (s : WebServer) (st : State) :
  (exists userID, checks_pass s st userID /\ invokes s st userID) \/
  ((forall userID, ~ checks_pass s st userID) /\ exists msg, rejects s st msg).
Proof.
  set (authHeader := Get (ctx st) "Authorization").
  set (parts := strings.Split authHeader " "%char).
  assert (Hinv : forall userID, checks_pass s st userID ->
            authHeader <> EmptyString /\ length parts = 2%nat /\
            nth 0 parts EmptyString = "Bearer" /\
            exists token claims,
              jwt.Parse (now st) (nth 1 parts EmptyString) (keyFunc s)
              = (Some token, None) /\ jwt.Valid token = true /\
              jwt.claims token = jwt.MapClaims claims /\
              claims !! "sub" = Some (Str userID)).
  { intros u (Hh & tokenString & token & claims & Hs & Hp & Hv & Hc & Hsub).
    fold authHeader in Hh, Hs. fold parts in Hs.
    rewrite Hs. cbn [length nth]. eauto 10. }
  destruct (String.eqb_spec authHeader EmptyString) as [Hh|Hh].
  { right. split; [none_passes Hinv |].
    eexists. intros handler. unfold tokenRequired. run_M.
    fold authHeader. rewrite Hh. reflexivity. }
  assert (Hformat : length parts <> 2%nat \/ nth 0 parts EmptyString <> "Bearer" ->
            rejects s st
              "Invalid Authorization header format. Expected: `Bearer <token>`").
  { intros Hbad handler. unfold tokenRequired. run_M.
    fold authHeader. fold parts.
    destruct (String.eqb_spec authHeader EmptyString) as [|_]; [done |].
    destruct (Nat.eqb_spec (length parts) 2) as [Hlen|Hlen]; [| reflexivity].
    destruct (String.eqb_spec (nth 0 parts EmptyString) "Bearer") as [Hb|Hb];
      [| reflexivity].
    destruct Hbad; done. }
  destruct (Nat.eqb_spec (length parts) 2) as [Hlen|Hlen]; cycle 1.
  { right. split; [none_passes Hinv | eauto]. }
  destruct (String.eqb_spec (nth 0 parts EmptyString) "Bearer") as [Hb|Hb];
    cycle 1.
  { right. split; [none_passes Hinv | eauto]. }
  pose proof (fun handler => tokenRequired_bearer s st handler Hh Hlen Hb) as Hrun.
  cbv zeta in Hrun. fold authHeader in Hrun. fold parts in Hrun.
  destruct (jwt.Parse (now st) (nth 1 parts EmptyString) (keyFunc s))
    as [[token|] [e|]] eqn:Hp.
  - right. split; [none_passes Hinv | answered Hrun].
  - destruct (jwt.Valid token) eqn:Hv; cycle 1.
    { right. split; [none_passes Hinv | answered Hrun]. }
    destruct (jwt.claims token) as [claims|] eqn:Hc; cycle 1.
    { right. split; [none_passes Hinv | answered Hrun]. }
    cbn [negb] in Hrun.
    destruct (claims !! "sub") as [v|] eqn:Hsub; cycle 1.
    { right. split; [none_passes Hinv | answered Hrun]. }
    destruct v as [| | |userID| |];
      try (right; split; [none_passes Hinv | answered Hrun]).
    left. exists userID. split; [| exact Hrun].
    split; [exact Hh |]. exists (nth 1 parts EmptyString), token, claims.
    split; [by apply parts_two_bearer |]. done.
  - right. split; [none_passes Hinv | answered Hrun].
  - exfalso. by apply Parse_nil in Hp.
Qed.

Lemma Locals_bound (st : State) (userID : string) :
  Locals (ctx (bound userID st)) "userID" = Str userID.
Proof.
  unfold Locals, bound, with_ctx, SetLocals. cbn [ctx locals].
  by rewrite lookup_insert_eq.
Qed.

(** A request the gateway hands over has passed its checks, for the
    identity it binds: seen with a handler that returns the identity it
    finds bound, and with one that panics. *)
Lemma invokes_passes (s : WebServer) (st : State) (userID : string) :
  invokes s st userID -> checks_pass s st userID.
Proof.
  intros Hinv.
  destruct (tokenRequired_decides s st)
    as [(userID' & Hpass & Hinv') | (_ & msg & Hrej)].
  - set (probe := (fun st' : State =>
                     Returned (match Locals (ctx st') "userID" with
                               | Str u => Some u
                               | _ => None
                               end) st') : Handler).
    pose proof (Hinv probe) as Hrun. rewrite (Hinv' probe) in Hrun.
    unfold probe in Hrun. rewrite !Locals_bound in Hrun.
    injection Hrun as -> _. exact Hpass.
  - pose proof (Hinv panic) as Hrun. rewrite (Hrej panic) in Hrun.
    discriminate Hrun.
Qed.

(** X9: [tokenRequired] runs the handler with the identity [userID] bound
    exactly when the [Authorization] header is [Bearer h.c.g] for three
    segments of which the first decodes to a header that names HS256,
    HS384 or HS512, the second decodes to claims that pass the time
    validation and hold [userID] as the string [sub], and the third
    decodes to the MAC, by that method and under the server's secret, of
    [h.c]; a request whose header is of that form for no identity is
    answered with [Unauthorized] whatever the handler, so that no unsigned
    token, no token of another method and no token with another signature
    reaches a handler. *)
Theorem accepted_tokens_are_signed (s : WebServer) (st : State) (userID : string) :
  let signed_for userID :=
    exists h c g,
      Get (ctx st) "Authorization" = "Bearer " ++ h ++ "." ++ c ++ "." ++ g /\
      well_signed s (now st) h c g userID in
  (invokes s st userID <-> signed_for userID) /\
  ((forall userID', ~ signed_for userID') ->
   exists msg, rejects s st msg /\
               status (ctx (unauthorized msg st)) = StatusUnauthorized).
Proof.
  intros signed_for. subst signed_for. cbv beta. split; [split |].
  - intros Hinv. by apply passes_well_signed, invokes_passes.
  - intros (h & c & g & Hauth & Hsigned).
    by eapply tokenRequired_invokes, well_signed_passes.
  - intros Hnone.
    destruct (tokenRequired_decides s st)
      as [(userID' & Hpass & _) | (_ & msg & Hrej)].
    + destruct (Hnone userID'). by apply passes_well_signed.
    + exists msg. split; [exact Hrej | reflexivity].
Qed.

(** *** Tokens signed elsewhere, and tokens of the other HMAC methods *)

Lemma SigningString_segments method (m : gmap string any) sstr :
  jwt.SigningString (jwt.NewWithClaims method (jwt.MapClaims m)) = Some sstr ->
  exists hb cb,
    jwt.json_Marshal (jwt.Header (jwt.NewWithClaims method (jwt.MapClaims m)))
    = Some hb /\
    jwt.json_Marshal m = Some cb /\
    sstr = jwt.EncodeSegment hb ++ "." ++ jwt.EncodeSegment cb.
Proof.
  unfold jwt.SigningString. cbn [jwt.claims jwt.NewWithClaims jwt.Header].
  destruct (jwt.json_Marshal _) as [hb|]; [| done].
  destruct (jwt.json_Marshal m) as [cb|]; [| done].
  intros [= <-]. by exists hb, cb.
Qed.

Lemma Split_token (hb cb sig : list ascii) :
  strings.Split (jwt.EncodeSegment hb ++ "." ++ jwt.EncodeSegment cb ++ "."
                 ++ jwt.EncodeSegment sig) "."%char
  = [jwt.EncodeSegment hb; jwt.EncodeSegment cb; jwt.EncodeSegment sig].
Proof.
  change (jwt.EncodeSegment hb ++ "." ++ jwt.EncodeSegment cb ++ "."
          ++ jwt.EncodeSegment sig)
    with (jwt.EncodeSegment hb
          ++ String "."%char (jwt.EncodeSegment cb
                              ++ String "."%char (jwt.EncodeSegment sig))).
  rewrite !Split_app, Split_free;
    first done; apply free_of_EncodeSegment, dot_foreign.
Qed.

Lemma free_of_token c (hb cb sig : list ascii) :
  base64.foreign c = true -> Ascii.eqb "."%char c = false ->
  strings.free_of c (jwt.EncodeSegment hb ++ "." ++ jwt.EncodeSegment cb ++ "."
                     ++ jwt.EncodeSegment sig) = true.
Proof.
  intros Hc Hdot. rewrite !free_of_app. cbn [strings.free_of].
  rewrite !free_of_EncodeSegment by done. by rewrite Hdot.
Qed.

(** X10: a token that was signed under another key, as by a server with
    another secret, is answered with [Unauthorized] and ["Invalid token"],
    provided no HMAC of its signing string under this server's secret
    equals the signature it carries. *)
Theorem token_of_another_key_is_rejected (s : WebServer) (st : State)
    (key : list ascii) (m : gmap string any) (sstr tokenString : string) :
  let token := jwt.NewWithClaims jwt.SigningMethodHS256 (jwt.MapClaims m) in
  jwt.SigningString token = Some sstr ->
  jwt.SignedString token key = Some tokenString ->
  (forall hash,
     jwt.hmac_Sum hash (list_ascii_of_string (jwtSecret s))
       (list_ascii_of_string sstr)
     <> jwt.hmac_Sum jwt.SHA256 key (list_ascii_of_string sstr)) ->
  Get (ctx st) "Authorization" = "Bearer " ++ tokenString ->
  rejects s st "Invalid token".
Proof.
  intros token Hsigning Hsigned Hother Hauth handler.
  pose proof Hsigning as (hb & cb & _ & _ & Hsstr)%SigningString_segments.
  unfold jwt.SignedString in Hsigned. rewrite Hsigning in Hsigned.
  cbn [token jwt.Method jwt.NewWithClaims jwt.Sign jwt.SigningMethodHS256] in Hsigned.
  set (sig := jwt.hmac_Sum jwt.SHA256 key (list_ascii_of_string sstr)) in *.
  assert (Hts : tokenString
                = jwt.EncodeSegment hb ++ "." ++ jwt.EncodeSegment cb ++ "."
                  ++ jwt.EncodeSegment sig).
  { injection Hsigned as <-. cbn [strings.Join]. rewrite Hsstr.
    by rewrite !append_assoc. }
  rewrite Hts in Hauth.
  assert (Hsplit : strings.Split (Get (ctx st) "Authorization") " "%char
                   = ["Bearer"; jwt.EncodeSegment hb ++ "." ++ jwt.EncodeSegment cb
                                ++ "." ++ jwt.EncodeSegment sig]).
  { rewrite Hauth. apply Split_bearer. by apply free_of_token. }
  rewrite tokenRequired_bearer; rewrite ?Hsplit; try done;
    [| rewrite Hauth; discriminate].
  cbn [nth].
  destruct (jwt.Parse _ _ _) as [[parsed|] [e|]] eqn:Hp; try reflexivity.
  - exfalso.
    apply Parse_ok in Hp
      as (h & c & g & header & cl & name & hash & Hs & _ & _ & _ & _ & _ & Hg & _).
    rewrite Split_token in Hs. injection Hs as <- <- <-.
    rewrite DecodeSegment_EncodeSegment in Hg. injection Hg as Hg.
    apply (Hother hash). by rewrite Hsstr.
  - exfalso. by apply Parse_nil in Hp.
Qed.

Lemma SignedString_well_signed (s : WebServer) name hash (m : gmap string any) :
  let token := jwt.NewWithClaims (jwt.SigningMethodHMAC name hash) (jwt.MapClaims m) in
  jwt.GetSigningMethod name = Some (jwt.SigningMethodHMAC name hash) ->
  jwt.reads_back jwt.json_Unmarshal (jwt.Header token) ->
  jwt.reads_back jwt.json_Decode m ->
  exists h c g,
    jwt.SignedString token (list_ascii_of_string (jwtSecret s))
    = Some (h ++ "." ++ c ++ "." ++ g) /\
    forall t userID,
      jwt.MapClaims_Valid m t = 0 -> m !! "sub" = Some (Str userID) ->
      well_signed s t h c g userID.
Proof.
  intros token Hm (hb & Hhm & Hhu) (cb & Hcm & Hcd).
  set (h := jwt.EncodeSegment hb). set (c := jwt.EncodeSegment cb).
  set (sig := jwt.hmac_Sum hash (list_ascii_of_string (jwtSecret s))
                (list_ascii_of_string (h ++ "." ++ c))).
  exists h, c, (jwt.EncodeSegment sig). split.
  - unfold jwt.SignedString, jwt.SigningString. rewrite Hhm.
    cbn [jwt.claims token jwt.NewWithClaims jwt.Method jwt.Sign]. rewrite Hcm.
    cbn [strings.Join]. fold h c. fold sig. by rewrite !append_assoc.
  - intros t userID Hvalid Hsub.
    exists (jwt.Header token), m, name, hash.
    unfold h at 1, c at 1. rewrite !DecodeSegment_EncodeSegment. cbn.
    repeat split; done.
Qed.

(** X11: the gateway does not pin the signing method to the HS256 that
    [loginUser] uses: where the JSON codec reads back what it writes, a
    token signed with the server's secret by any of HS256, HS384 and HS512
    whose claims pass the time validation and hold a string [sub] makes
    the gateway invoke the handler with that [sub] bound. *)
Theorem any_hmac_method_is_accepted (s : WebServer) (name : string)
    (hash : jwt.Hash) (m : gmap string any) (userID : string) :
  let token := jwt.NewWithClaims (jwt.SigningMethodHMAC name hash) (jwt.MapClaims m) in
  In (name, hash) [("HS256", jwt.SHA256); ("HS384", jwt.SHA384);
                   ("HS512", jwt.SHA512)] ->
  jwt.reads_back jwt.json_Unmarshal (jwt.Header token) ->
  jwt.reads_back jwt.json_Decode m ->
  m !! "sub" = Some (Str userID) ->
  exists tokenString,
    jwt.SignedString token (list_ascii_of_string (jwtSecret s)) = Some tokenString /\
    forall st,
      jwt.MapClaims_Valid m (now st) = 0 ->
      Get (ctx st) "Authorization" = "Bearer " ++ tokenString ->
      checks_pass s st userID /\ invokes s st userID.
Proof.
  intros token Hin Hheader Hclaims Hsub.
  assert (Hm : jwt.GetSigningMethod name = Some (jwt.SigningMethodHMAC name hash)).
  { destruct Hin as [[= <- <-]|[[= <- <-]|[[= <- <-]|[]]]]; reflexivity. }
  destruct (SignedString_well_signed s name hash m Hm Hheader Hclaims)
    as (h & c & g & Hsigned & Hwell).
  eexists. split; [exact Hsigned |].
  intros st Hvalid Hauth.
  assert (Hpass : checks_pass s st userID)
    by (eapply well_signed_passes; eauto).
  split; [exact Hpass | by apply tokenRequired_invokes].
Qed.

(** X12: for every identity the client service returns, not only for a
    particular one: where the JSON codec reads back the header and the
    claims it wrote, a login the service accepts answers [OK] with a token,
    leaves the service in the state the login left it, and that token, sent
    as [Bearer] header at any time at which its claims pass the time
    validation, makes the gateway invoke the handler with exactly the
    identity the service returned. *)
Theorem login_then_gateway (s : WebServer) (st : State)
    (req : LoginRequest) (b : Backend) (userID : string) :
  jwt.reads_back jwt.json_Unmarshal hs256_header ->
  jwt.reads_back jwt.json_Decode {[ "sub" := Str userID ]} ->
  ValidateLogin (ctx st) = inl req ->
  LoginUser (Username req) (Password req) (backend st) = (inl userID, b) ->
  exists tokenString st',
    loginUser s st = Returned None st' /\
    status (ctx st') = StatusOK /\
    body (ctx st') = JSONBody (Map [("jwtToken", Str tokenString)]) /\
    backend st' = b /\
    forall st2,
      jwt.MapClaims_Valid {[ "sub" := Str userID ]} (now st2) = 0 ->
      Get (ctx st2) "Authorization" = "Bearer " ++ tokenString ->
      invokes s st2 userID.
Proof.
  intros Hheader Hclaims Hreq Hlogin.
  destruct (SignedString_well_signed s "HS256" jwt.SHA256
              {[ "sub" := Str userID ]} eq_refl Hheader Hclaims)
    as (h & c & g & Hsigned & Hwell).
  eexists. eexists. split.
  { unfold loginUser. run_M. cbn [ctx]. rewrite Hreq. cbn [backend].
    rewrite Hlogin.
    change (jwt.SignedString _ _) with
      (jwt.SignedString (jwt.NewWithClaims jwt.SigningMethodHS256
                           (jwt.MapClaims {[ "sub" := Str userID ]}))
         (list_ascii_of_string (jwtSecret s))).
    unfold jwt.SigningMethodHS256. rewrite Hsigned. reflexivity. }
  split; [reflexivity |]. split; [reflexivity |]. split; [reflexivity |].
  intros st2 Hvalid Hauth. apply tokenRequired_invokes.
  eapply well_signed_passes; [exact Hauth |].
  apply Hwell; [exact Hvalid | apply lookup_singleton_eq].
Qed.

(** *** The handlers behind the gateway *)

Lemma fromHexChar_Some c : is_hex_digit c = true -> is_Some (fromHexChar c).
Proof.
  unfold is_hex_digit, fromHexChar. cbv zeta.
  destruct ((48 <=? N_of_ascii c)%N && (N_of_ascii c <=? 57)%N); [eauto |].
  destruct ((97 <=? N_of_ascii c)%N && (N_of_ascii c <=? 102)%N); [eauto |].
  destruct ((65 <=? N_of_ascii c)%N && (N_of_ascii c <=? 70)%N); [eauto | done].
Qed.

Lemma hex_decode_good s acc :
  forallb is_hex_digit (list_ascii_of_string s) = true ->
  exists id, hex_decode s acc = inl id.
Proof.
  revert acc. induction s as [|c s IH]; intros acc; [eauto |].
  cbn [list_ascii_of_string forallb hex_decode].
  intros [Hc Hs]%andb_prop.
  destruct (fromHexChar_Some c Hc) as [d ->]. by apply IH.
Qed.

Lemma ObjectIDFromHex_good userID :
  is_hex24 userID = true -> exists id, ObjectIDFromHex userID = inl id.
Proof.
  unfold is_hex24, ObjectIDFromHex. intros [-> Hall]%andb_prop.
  cbn [negb]. by apply hex_decode_good.
Qed.

(** One step of a handler: the next value it branches on. *)
Ltac branch :=
  run_M;
  match goal with
  | |- context [ match ?x with _ => _ end ] =>
      lazymatch x with
      | context [ match _ with _ => _ end ] => fail
      | _ => destruct x eqn:?
      end
  end.

Ltac ended :=
  run_M; eexists; split; [reflexivity |];
  cbn [ctx status SetBody Status]; unfold handler_statuses; cbn [In]; tauto.

(** With an identity bound, each protected handler returns, with one of
    the four handler statuses. *)
Lemma protected_handlers_return (s : WebServer) :
  Forall (fun handler : Handler =>
            forall st userID, Locals (ctx st) "userID" = Str userID ->
              exists st', handler st = Returned None st' /\
                          In (status (ctx st')) handler_statuses)
    (protected_handlers s).
Proof.
  unfold protected_handlers.
  repeat apply Forall_cons_2; [..| apply Forall_nil_2]; intros st userID Hlocal.
  - unfold receiveVideo. run_M. rewrite Hlocal. repeat branch; ended.
  - unfold getUserSceneHistory. run_M. rewrite Hlocal. repeat branch; ended.
  - unfold getSceneMetadata. branch; [| ended].
    run_M. rewrite Hlocal. repeat branch; ended.
  - unfold getSceneThumbnail. branch; [| ended].
    run_M. rewrite Hlocal. repeat branch; ended.
  - unfold getSceneName. branch; [| ended]. branch; [| ended].
    run_M. rewrite Hlocal. repeat branch; ended.
Qed.

(** X13: on each of the five protected routes every request ends without a
    panic, and it ends with [Unauthorized] exactly when no identity passes
    the checks of the gateway: the handlers themselves answer with [OK],
    [Accepted], [BadRequest] or [InternalServerError] only, so that a client
    can tell a rejected token from every other failure. *)
Theorem unauthorized_iff_rejected (s : WebServer) :
  Forall (fun handler : Handler =>
            forall st, exists st',
              ends_in s st handler st' /\
              (status (ctx st') = StatusUnauthorized <->
               forall userID, ~ checks_pass s st userID) /\
              ((exists userID, checks_pass s st userID) ->
               In (status (ctx st')) handler_statuses))
    (protected_handlers s).
Proof.
  eapply Forall_impl; [apply protected_handlers_return |].
  intros handler Hreturns st. unfold ends_in.
  destruct (tokenRequired_decides s st)
    as [(userID & Hpass & Hinv) | (Hnone & msg & Hrej)].
  - destruct (Hreturns (bound userID st) userID (Locals_bound st userID))
      as (st' & Hrun & Hstatus).
    exists st'. rewrite Hinv. split; [exact Hrun |]. split; [| done].
    split.
    + intros H401. rewrite H401 in Hstatus.
      unfold handler_statuses in Hstatus. cbn [In] in Hstatus.
      by repeat destruct Hstatus as [Hstatus|Hstatus].
    + intros Hno. by destruct (Hno userID).
  - eexists. split; [apply Hrej |]. split; [done |].
    intros [userID Hpass]. by destruct (Hnone userID).
Qed.

(** X14: the gateway itself never panics: a request behind it panics only
    when all checks have passed and the handler, run with the identity
    bound, panics.  The handlers rely on that binding: [receiveVideo] and
    [getUserSceneHistory], run on a context in which [userID] is not bound
    to a string, panic. *)
Theorem panics_come_from_the_handler (s : WebServer) :
  (forall (handler : Handler) st st',
     tokenRequired s handler st = Panicked st' ->
     exists userID, checks_pass s st userID /\
                    handler (bound userID st) = Panicked st') /\
  (forall st, (forall userID, Locals (ctx st) "userID" <> Str userID) ->
     (exists st', receiveVideo s st = Panicked st') /\
     (exists st', getUserSceneHistory s st = Panicked st')).
Proof.
  split.
  - intros handler st st' Hpanic.
    destruct (tokenRequired_decides s st)
      as [(userID & Hpass & Hinv) | (_ & msg & Hrej)].
    + exists userID. by rewrite <- Hinv.
    + by rewrite Hrej in Hpanic.
  - intros st Hnone. unfold receiveVideo, getUserSceneHistory. run_M.
    destruct (Locals (ctx st) "userID") as [| | |userID| |] eqn:Hlocal;
      try (split; eexists; reflexivity).
    by destruct (Hnone userID).
Qed.

(** X15: behind the gateway, for a request that passes its checks for the
    identity [userID], [getUserSceneHistory] answers [BadRequest] exactly
    when [userID] is not twenty-four hex characters, and then without
    calling the client service; otherwise it calls the service once, with
    the identifier that [userID] spells, and answers [OK] with the list the
    service returns or [InternalServerError] with its error. *)
Theorem history_by_identity (s : WebServer) (st : State) (userID : string) :
  checks_pass s st userID ->
  exists st',
    ends_in s st (getUserSceneHistory s) st' /\
    (status (ctx st') = StatusBadRequest <-> is_hex24 userID = false) /\
    (is_hex24 userID = false -> backend st' = backend st) /\
    (forall id, ObjectIDFromHex userID = inl id ->
       backend st' = (GetUserSceneHistory id (backend st)).2 /\
       match (GetUserSceneHistory id (backend st)).1 with
       | inl sceneIDList =>
           status (ctx st') = StatusOK /\
           body (ctx st') = JSONBody (Map [("resources", sceneIDList)])
       | inr err =>
           status (ctx st') = StatusInternalServerError /\
           body (ctx st') = JSONBody (Map [("error", Str err)])
       end).
Proof.
  intros Hpass. unfold ends_in.
  rewrite (tokenRequired_invokes s st userID Hpass).
  unfold getUserSceneHistory. run_M. rewrite Locals_bound.
  destruct (is_hex24 userID) eqn:Hhex.
  - destruct (ObjectIDFromHex_good userID Hhex) as [id Hid]. rewrite Hid.
    run_M. cbn [bound with_ctx backend].
    destruct (GetUserSceneHistory id (backend st)) as [[sceneIDList|err] b] eqn:Hcall;
      run_M; eexists; (split; [reflexivity |]);
      cbn [ctx status body SetBody Status backend];
      (split; [split; discriminate |]); (split; [discriminate |]);
      intros id' [= <-]; rewrite Hcall; done.
  - destruct (ObjectIDFromHex_bad userID Hhex) as [e He]. rewrite He.
    run_M. eexists. split; [reflexivity |].
    cbn [ctx status body SetBody Status backend bound with_ctx].
    split; [done |]. split; [done |]. intros id [=].
Qed.

(** X16: behind the gateway the client service is called for the identity of
    the token and for no other: for a request that passes the checks for
    [userID], twenty-four hex characters that spell the identifier [uid],
    [receiveVideo], [getSceneMetadata], [getSceneThumbnail] and
    [getSceneName] call the service once, with [uid] as the owner (and the
    scene of the request, where it names one by twenty-four hex
    characters), and answer with what the service returns: [Accepted] or
    [OK] with the value, [BadRequest] for an error of the upload and
    [InternalServerError] for an error of the three reads and for a
    thumbnail file that cannot be read. *)
Theorem handlers_serve_the_token_identity (s : WebServer) (st : State)
    (userID : string) (uid : N) :
  checks_pass s st userID ->
  ObjectIDFromHex userID = inl uid ->
  let c := ctx (bound userID st) in
  (forall req, ParseVideoUploadRequest c = inl req ->
     exists st',
       ends_in s st (receiveVideo s) st' /\
       backend st' = (HandleIncomingVideo uid req (backend st)).2 /\
       match (HandleIncomingVideo uid req (backend st)).1 with
       | inl sceneID =>
           status (ctx st') = StatusAccepted /\
           body (ctx st')
           = JSONBody (Map [("id", sceneID);
                            ("message",
                             Str "Video received and processing scene. Check back later for updates.")])
       | inr err =>
           status (ctx st') = StatusBadRequest /\
           body (ctx st') = JSONBody (Map [("error", Str err)])
       end) /\
  (forall req sid, ValidateMetadata c = inl req ->
     ObjectIDFromHex (SceneID req) = inl sid ->
     exists st',
       ends_in s st (getSceneMetadata s) st' /\
       backend st' = (GetSceneMetadata uid sid (backend st)).2 /\
       match (GetSceneMetadata uid sid (backend st)).1 with
       | inl sceneData =>
           status (ctx st') = StatusOK /\ body (ctx st') = JSONBody sceneData
       | inr err =>
           status (ctx st') = StatusInternalServerError /\
           body (ctx st') = JSONBody (Map [("error", Str err)])
       end) /\
  (forall req sid, ValidateThumbnail c = inl req ->
     ObjectIDFromHex (SceneID req) = inl sid ->
     exists st',
       ends_in s st (getSceneThumbnail s) st' /\
       backend st' = (GetSceneThumbnailPath uid sid (backend st)).2 /\
       match (GetSceneThumbnailPath uid sid (backend st)).1 with
       | inl thumbnailPath =>
           match ReadFile thumbnailPath (backend st') with
           | inl thumbnailData =>
               status (ctx st') = StatusOK /\
               body (ctx st') = BytesBody thumbnailData
           | inr err =>
               status (ctx st') = StatusInternalServerError /\
               body (ctx st') = JSONBody (Map [("error", Str err)])
           end
       | inr err =>
           status (ctx st') = StatusInternalServerError /\
           body (ctx st') = JSONBody (Map [("error", Str err)])
       end) /\
  (forall req sid, ValidateName c = inl req ->
     ObjectIDFromHex (SceneID req) = inl sid ->
     exists st',
       ends_in s st (getSceneName s) st' /\
       backend st' = (GetSceneName uid sid (backend st)).2 /\
       match (GetSceneName uid sid (backend st)).1 with
       | inl sceneName =>
           status (ctx st') = StatusOK /\
           body (ctx st') = JSONBody (Map [("scene_name", Str sceneName)])
       | inr err =>
           status (ctx st') = StatusInternalServerError /\
           body (ctx st') = JSONBody (Map [("error", Str err)])
       end).
Proof.
  intros Hpass Huid c. subst c. unfold ends_in.
  pose proof (tokenRequired_invokes s st userID Hpass) as Hinv.
  pose proof (Locals_bound st userID) as Hlocal.
  assert (Hb : backend (bound userID st) = backend st) by reflexivity.
  split; [| split; [| split]].
  - intros req Hreq. rewrite Hinv. unfold receiveVideo. run_M.
    rewrite Hlocal, Huid. run_M. rewrite Hreq. run_M. rewrite Hb.
    destruct (HandleIncomingVideo uid req (backend st)) as [[sceneID|err] b];
      run_M; eexists; (split; [reflexivity |]); done.
  - intros req sid Hreq Hsid. rewrite Hinv. unfold getSceneMetadata. run_M.
    rewrite Hreq. run_M. rewrite Hlocal, Huid, Hsid. run_M. rewrite Hb.
    destruct (GetSceneMetadata uid sid (backend st)) as [[sceneData|err] b];
      run_M; eexists; (split; [reflexivity |]); done.
  - intros req sid Hreq Hsid. rewrite Hinv. unfold getSceneThumbnail. run_M.
    rewrite Hreq. run_M. rewrite Hlocal, Huid, Hsid. run_M. rewrite Hb.
    destruct (GetSceneThumbnailPath uid sid (backend st))
      as [[thumbnailPath|err] b]; run_M.
    + destruct (ReadFile thumbnailPath b) as [thumbnailData|err] eqn:Hfile;
        run_M; eexists; (split; [reflexivity |]);
        cbn [fst snd backend]; rewrite Hfile; done.
    + eexists. split; [reflexivity |]. done.
  - intros req sid Hreq Hsid. rewrite Hinv. unfold getSceneName. run_M.
    rewrite Hreq, Hsid. run_M. rewrite Hlocal, Huid. run_M. rewrite Hb.
    destruct (GetSceneName uid sid (backend st)) as [[sceneName|err] b];
      run_M; eexists; (split; [reflexivity |]); done.
Qed.

Lemma error_is_no_token (err tokenString : string) :
  JSONBody (Map [("error", Str err)])
  <> JSONBody (Map [("jwtToken", Str tokenString)]).
Proof.
  unfold Map. cbn [list_to_map]. intros Heq.
  apply (f_equal (fun b => match b with
                           | JSONBody (Obj m) => m !! "error"
                           | _ => None
                           end)) in Heq.
  cbn [list_to_map foldr uncurry fst snd] in Heq.
  rewrite lookup_insert_eq, lookup_insert_ne in Heq by done. done.
Qed.

Lemma token_body_inj (a b : string) :
  JSONBody (Map [("jwtToken", Str a)]) = JSONBody (Map [("jwtToken", Str b)]) ->
  a = b.
Proof.
  unfold Map. intros Heq.
  apply (f_equal (fun b => match b with
                           | JSONBody (Obj m) => m !! "jwtToken"
                           | _ => None
                           end)) in Heq.
  cbn [list_to_map foldr uncurry fst snd] in Heq.
  rewrite !lookup_insert_eq in Heq. by injection Heq.
Qed.

(** X17: [loginUser] always returns, with [OK], [BadRequest], [Unauthorized]
    or [InternalServerError]; a request that fails validation is answered
    with [BadRequest] without a call of the client service; and the
    response carries a token only with [OK] and only when the service has
    accepted the credentials of the request, the token being the one signed
    for exactly the identity the service returned. *)
Theorem login_issues_tokens_for_accepted_credentials_only (s : WebServer)
    (st : State) :
  exists st',
    loginUser s st = Returned None st' /\
    In (status (ctx st'))
      [StatusOK; StatusBadRequest; StatusUnauthorized; StatusInternalServerError] /\
    (forall err, ValidateLogin (ctx st) = inr err ->
       status (ctx st') = StatusBadRequest /\ backend st' = backend st) /\
    (status (ctx st') = StatusOK <->
     exists tokenString,
       body (ctx st') = JSONBody (Map [("jwtToken", Str tokenString)])) /\
    (forall tokenString,
       body (ctx st') = JSONBody (Map [("jwtToken", Str tokenString)]) ->
       exists req userID,
         ValidateLogin (ctx st) = inl req /\
         (LoginUser (Username req) (Password req) (backend st)).1 = inl userID /\
         jwt.SignedString
           (jwt.NewWithClaims jwt.SigningMethodHS256
              (jwt.MapClaims {[ "sub" := Str userID ]}))
           (list_ascii_of_string (jwtSecret s)) = Some tokenString).
Proof.
  unfold loginUser. run_M.
  destruct (ValidateLogin (ctx st)) as [req|err] eqn:Hreq; run_M.
  - destruct (LoginUser (Username req) (Password req) (backend st))
      as [[userID|err] b] eqn:Hlogin; run_M.
    + destruct (jwt.SignedString _ _) as [tokenString|] eqn:Hsigned; run_M.
      * eexists. split; [reflexivity |].
        cbn [ctx status body SetBody Status backend].
        split; [cbn; tauto |]. split; [done |].
        split; [split; [intros _; by eexists | done] |].
        intros ts <-%token_body_inj. exists req, userID. by rewrite Hlogin.
      * eexists. split; [reflexivity |].
        cbn [ctx status body SetBody Status backend].
        split; [cbn; tauto |]. split; [done |].
        split; [split; [done | by intros [ts Hb%error_is_no_token]] |].
        by intros ts Hb%error_is_no_token.
    + eexists. split; [reflexivity |].
      cbn [ctx status body SetBody Status backend].
      split; [cbn; tauto |]. split; [done |].
      split; [split; [done | by intros [ts Hb%error_is_no_token]] |].
      by intros ts Hb%error_is_no_token.
  - eexists. split; [reflexivity |].
    cbn [ctx status body SetBody Status backend].
    split; [cbn; tauto |]. split; [by intros err' [= <-] |].
    split; [split; [done | by intros [ts Hb%error_is_no_token]] |].
    by intros ts Hb%error_is_no_token.
Qed.

Lemma behind_gateway (s : WebServer) (handler : Handler) (st : State) :
  In handler (protected_handlers s) ->
  exists st',
    tokenRequired s handler st = Returned None st' /\
    (status (ctx st') = StatusUnauthorized <->
     forall userID, ~ checks_pass s st userID) /\
    ((forall userID, ~ checks_pass s st userID) ->
     exists msg, st' = unauthorized msg st).
Proof.
  intros Hin%list_elem_of_In.
  pose proof (proj1 (Forall_forall _ _) (protected_handlers_return s) handler Hin)
    as Hreturns.
  destruct (tokenRequired_decides s st)
    as [(userID & Hpass & Hinv) | (Hnone & msg & Hrej)].
  - destruct (Hreturns (bound userID st) userID (Locals_bound st userID))
      as (st' & Hrun & Hstatus).
    exists st'. rewrite Hinv. split; [exact Hrun |]. split; [split |].
    + intros H401. rewrite H401 in Hstatus.
      unfold handler_statuses in Hstatus. cbn [In] in Hstatus.
      by repeat destruct Hstatus as [Hstatus|Hstatus].
    + intros Hno. by destruct (Hno userID).
    + intros Hno. by destruct (Hno userID).
  - eexists. split; [apply Hrej |]. split; [done |]. eauto.
Qed.

End Gateway.

(** *** The routing table and the open routes *)

Section Routes.
Import webapp.
Context `{GoFloat} `{!jwt.Libraries} `{!Services} `{!Platform}.

(** X18: of the routes that [SetupRoutes] registers, every one whose path is
    not [/login], [/register], [/routes], [/health] or [/worker-data/:path]
    is behind the gateway: each request to it ends without a panic, with
    [Unauthorized] exactly when no identity passes the gateway's checks, and
    then nothing but the response and the log has changed, the client
    service has not been called and no identity has been bound; [/video],
    [/history] and the three paths under [/data/scene/] are among the
    routes registered. *)
Theorem routes_behind_the_gateway (s : WebServer) :
  Forall (fun path => exists r, In r (SetupRoutes s []) /\ Path r = path)
    ["/video"; "/history"; "/data/scene/metadata/:scene_id";
     "/data/scene/thumbnail/:scene_id"; "/data/scene/name/:scene_id"] /\
  Forall (fun r =>
            ~ In (Path r) open_paths ->
            forall st, exists st',
              Handlers r st = Returned None st' /\
              (status (ctx st') = StatusUnauthorized <->
               forall userID, ~ checks_pass s st userID) /\
              ((forall userID, ~ checks_pass s st userID) ->
               backend st' = backend st /\
               locals (ctx st') = locals (ctx st)))
    (SetupRoutes s []).
Proof.
  split.
  { repeat apply Forall_cons_2; [..| apply Forall_nil_2];
      match goal with
      | |- exists r, _ /\ Path r = ?path => eexists (mkRoute _ path _)
      end;
      (split; [| reflexivity]);
      unfold SetupRoutes, app_Post, app_Get; cbn [app In];
      repeat (first [ left; reflexivity | right ]). }
  unfold SetupRoutes, app_Post, app_Get. cbn [app].
  repeat apply Forall_cons_2; [..| apply Forall_nil_2]; cbn [Path Handlers];
    intros Hopen;
    try (exfalso; apply Hopen; unfold open_paths; cbn [In]; tauto);
    intros st;
    match goal with
    | |- context [ tokenRequired s ?h st ] =>
        destruct (behind_gateway s h st) as (st' & Hrun & H401 & Hrej);
        [ unfold protected_handlers; cbn [In]; tauto |]
    end;
    exists st'; (split; [exact Hrun |]); (split; [exact H401 |]);
    intros Hnone; destruct (Hrej Hnone) as [msg ->]; done.
Qed.

(** X19: [registerUser] always returns, with [Created] or [BadRequest]: with
    [Created] exactly when the request passes validation and the client
    service registers the user; a request that fails validation is answered
    without a call of the service, and a refusal of the service is answered
    with the message of its error. *)
Theorem register_creates_or_refuses (s : WebServer) (st : State) :
  exists st',
    registerUser s st = Returned None st' /\
    In (status (ctx st')) [StatusCreated; StatusBadRequest] /\
    (status (ctx st') = StatusCreated <->
     exists req, ValidateRegister (ctx st) = inl req /\
       (RegisterUser (Username req) (Password req) (backend st)).1 = None) /\
    (forall err, ValidateRegister (ctx st) = inr err ->
       backend st' = backend st /\
       body (ctx st') = JSONBody (Map [("error", Str err)])) /\
    (forall req err, ValidateRegister (ctx st) = inl req ->
       (RegisterUser (Username req) (Password req) (backend st)).1 = Some err ->
       body (ctx st') = JSONBody (Map [("error", Str err)])).
Proof.
  unfold registerUser. run_M.
  destruct (ValidateRegister (ctx st)) as [req|err] eqn:Hreq; run_M.
  - destruct (RegisterUser (Username req) (Password req) (backend st))
      as [[err|] b] eqn:Hreg; run_M;
      eexists; (split; [reflexivity |]);
      cbn [ctx status body SetBody Status backend];
      (split; [cbn; tauto |]).
    + split; [split; [done |] |].
      * intros (req' & [= <-] & Hnil). by rewrite Hreg in Hnil.
      * split; [done |]. intros req' err' [= <-]. rewrite Hreg.
        by intros [= <-].
    + split; [split; [| done] |].
      * intros _. exists req. by rewrite Hreg.
      * split; [done |]. intros req' err' [= <-]. by rewrite Hreg.
  - eexists. split; [reflexivity |].
    cbn [ctx status body SetBody Status backend].
    split; [cbn; tauto |]. split; [split; [done |] |].
    + by intros (req' & [=] & _).
    + split; [by intros err' [= <-] | done].
Qed.

(** X20: [SetupFileStructure] attempts all three directories, [sfm], [nerf]
    and [raw] under [/data] in this order, also after an attempt has
    failed: it always returns, each failure is logged with its message and
    is not fatal, and the request context is left alone. *)
Theorem setup_file_structure_attempts_all (s : WebServer) (st : State) :
  let sfm := os_MkdirAll (filepath_Join "/data" "sfm") ModePerm (backend st) in
  let nerf := os_MkdirAll (filepath_Join "/data" "nerf") ModePerm sfm.2 in
  let raw := os_MkdirAll (filepath_Join "/data" "raw") ModePerm nerf.2 in
  SetupFileStructure s st
  = Returned tt {| ctx := ctx st;
                   logged := logged st ++ failures sfm.1 nerf.1 raw.1;
                   now := now st;
                   backend := raw.2 |}.
Proof.
  intros sfm nerf raw. subst sfm nerf raw.
  unfold SetupFileStructure, log_failure, failures. run_M.
  destruct (os_MkdirAll _ ModePerm (backend st)) as [[e1|] b1];
    cbn [fst snd]; run_M;
    (destruct (os_MkdirAll _ ModePerm b1) as [[e2|] b2]; cbn [fst snd]; run_M;
     (destruct (os_MkdirAll _ ModePerm b2) as [[e3|] b3]; cbn [fst snd]; run_M));
    rewrite <- ?app_assoc, ?app_nil_r; reflexivity.
Qed.

End Routes.

(** *** The theorems in the small world of the examples *)

#[local] Existing Instance example.floats.
#[local] Existing Instance example.libraries.
#[local] Existing Instance example.services.

Lemma accepted_tokens_are_signed_witness :
  invokes example.server (example.request ("Bearer " ++ fixtures.owner_token)) owner.
Proof.
  apply (proj1 (accepted_tokens_are_signed example.server
                  (example.request ("Bearer " ++ fixtures.owner_token)) owner)).
  set (parts := strings.Split fixtures.owner_token "."%char).
  exists (nth 0 parts EmptyString), (nth 1 parts EmptyString),
    (nth 2 parts EmptyString).
  split; [vm_compute; reflexivity |].
  eexists _, _, _, _.
  split; [vm_compute; reflexivity |].
  split; [vm_compute; reflexivity |].
  split; [vm_compute; reflexivity |].
  split; [vm_compute; reflexivity |].
  split; [vm_compute; reflexivity |].
  split; vm_compute; reflexivity.
Defined.

Lemma token_of_another_key_is_rejected_witness :
  rejects example.server (example.request ("Bearer " ++ fixtures.foreign_token))
    "Invalid token".
Proof.
  eapply (token_of_another_key_is_rejected example.server
            (example.request ("Bearer " ++ fixtures.foreign_token))
            (list_ascii_of_string "another secret") owner_claims).
  - vm_compute. reflexivity.
  - vm_compute. reflexivity.
  - intros []; vm_compute; discriminate.
  - vm_compute. reflexivity.
Defined.

Lemma any_hmac_method_is_accepted_witness :
  invokes example.server (example.request ("Bearer " ++ fixtures.hs512_token)) owner.
Proof.
  destruct (any_hmac_method_is_accepted example.server "HS512" jwt.SHA512
              owner_claims owner) as (tokenString & Hsigned & Hpass).
  - cbn [In]. tauto.
  - eexists. split; vm_compute; reflexivity.
  - eexists. split; vm_compute; reflexivity.
  - vm_compute. reflexivity.
  - apply Hpass; [reflexivity |].
    vm_compute in Hsigned. injection Hsigned as <-.
    vm_compute. reflexivity.
Defined.

Lemma login_then_gateway_witness :
  exists tokenString st',
    loginUser example.server (example.request EmptyString) = Returned None st' /\
    status (ctx st') = StatusOK /\
    invokes example.server (example.request ("Bearer " ++ tokenString)) owner.
Proof.
  destruct (login_then_gateway example.server (example.request EmptyString)
              {| Username := "ada"; Password := "lovelace" |} tt owner)
    as (tokenString & st' & Hlogin & Hstatus & _ & _ & Hinvokes).
  - eexists. split; vm_compute; reflexivity.
  - eexists. split; vm_compute; reflexivity.
  - reflexivity.
  - reflexivity.
  - exists tokenString, st'. split; [exact Hlogin |]. split; [exact Hstatus |].
    apply Hinvokes; [reflexivity |].
    unfold Get. cbn [ctx example.request reqHeaders].
    by rewrite lookup_singleton_eq.
Defined.

Lemma history_by_identity_witness :
  let st := example.request ("Bearer " ++ fixtures.owner_token) in
  checks_pass example.server st owner /\
  is_hex24 owner = true /\
  exists st',
    ends_in example.server st (getUserSceneHistory example.server) st' /\
    status (ctx st') = StatusOK /\
    body (ctx st') = JSONBody (Map [("resources", Arr [])]).
Proof.
  intros st.
  assert (Hpass : checks_pass example.server st owner).
  { split; [vm_compute; discriminate |].
    exists fixtures.owner_token. eexists. eexists.
    split; [vm_compute; reflexivity |].
    split; [vm_compute; reflexivity |].
    split; [reflexivity |]. split; [reflexivity |].
    vm_compute. reflexivity. }
  split; [exact Hpass |]. split; [reflexivity |].
  destruct (history_by_identity example.server st owner Hpass)
    as (st' & Hends & _ & _ & Hcall).
  exists st'. split; [exact Hends |].
  destruct (ObjectIDFromHex owner) as [id|e] eqn:Hid; [| discriminate Hid].
  exact (proj2 (Hcall id eq_refl)).
Defined.

Lemma handlers_serve_the_token_identity_witness :
  let st := example.request ("Bearer " ++ fixtures.owner_token) in
  checks_pass example.server st owner /\
  exists uid st',
    ObjectIDFromHex owner = inl uid /\
    ends_in example.server st (receiveVideo example.server) st' /\
    status (ctx st') = StatusAccepted.
Proof.
  intros st.
  assert (Hpass : checks_pass example.server st owner).
  { split; [vm_compute; discriminate |].
    exists fixtures.owner_token. eexists. eexists.
    split; [vm_compute; reflexivity |].
    split; [vm_compute; reflexivity |].
    split; [reflexivity |]. split; [reflexivity |].
    vm_compute. reflexivity. }
  split; [exact Hpass |].
  destruct (ObjectIDFromHex owner) as [uid|e] eqn:Huid; [| discriminate Huid].
  destruct (handlers_serve_the_token_identity example.server st owner uid
              Hpass Huid) as (Hvideo & _).
  destruct (Hvideo tt eq_refl) as (st' & Hends & _ & Hstatus).
  exists uid, st'. split; [reflexivity |]. split; [exact Hends |].
  exact (proj1 Hstatus).
Defined.

End AccessProperties.
